(** * Positive-impact scoring engine of cyber-good-news

    A shallow embedding of [src/processors/positive_scorer.py] (class
    [PositiveScorer]) together with the record of [src/models.py] and the
    threshold of [src/config.py], followed by the properties of the scoring
    engine stated in the specification.

    Modelling conventions.
    - A Python [str] is a [string]; [str.lower] is case folding of the letters
      [A]-[Z]; [a in b] on strings is substring containment.
    - A Python [float] is a primitive binary64 [float]; the integers that the
      code mixes with floats (a keyword count, the configured threshold) are
      converted the way Python converts them.
    - The rule lexicon is what [yaml.safe_load] hands back: mappings with
      optional keys (the code reads every key with [.get(key, default)]),
      insertion-ordered, and keyword lists whose entries are YAML scalars; an
      entry that is not a string makes [kw.lower()] raise. The lexicons
      covered are the mappings whose [base_score] and [modifier] values are
      floats. A document that is not a mapping (an empty file loads as
      [None]) and a score that is not a float (null, quoted, or an integer
      beyond the float range) are outside the embedding: there the
      arithmetic of lines 94 to 100 can raise as well, after [category] and
      [impact_score] have been assigned.
    - An exception is a value of [result]; a story is mutated in place, so the
      classifier is a computation in a state-and-exception monad over the
      story, and the batch entry point works on a store of story objects
      addressed by reference. *)

From Stdlib Require Import ZArith Floats Ascii String List Bool Lia.
From stdpp Require Import base functions gmap sets list strings.

Open Scope string_scope.

(** ** Strings *)

(** [c.lower()] on one character. *)
Definition lower_ascii (c : ascii) : ascii :=
  let n := N_of_ascii c in
  if ((65 <=? n) && (n <=? 90))%N then ascii_of_N (n + 32) else c.

(** [s.lower()]. *)
Fixpoint lower (s : string) : string :=
  match s with
  | EmptyString => EmptyString
  | String c rest => String (lower_ascii c) (lower rest)
  end.

(** [hay.startswith(needle)]. *)
Fixpoint starts_with (needle hay : string) : bool :=
  match needle, hay with
  | EmptyString, _ => true
  | String _ _, EmptyString => false
  | String a needle', String b hay' => Ascii.eqb a b && starts_with needle' hay'
  end.

(** [needle in hay]: the needle starts at some position of the haystack. *)
Fixpoint str_in (needle hay : string) : bool :=
  starts_with needle hay ||
  match hay with
  | EmptyString => false
  | String _ hay' => str_in needle hay'
  end.

(** [s[:n]]. *)
Fixpoint str_take (n : nat) (s : string) : string :=
  match n, s with
  | O, _ => EmptyString
  | S _, EmptyString => EmptyString
  | S n', String c rest => String c (str_take n' rest)
  end.

(** [s.split('.')[0]]: the text before the first full stop. *)
Fixpoint before_dot (s : string) : string :=
  match s with
  | EmptyString => EmptyString
  | String c rest => if Ascii.eqb c "."%char then EmptyString else String c (before_dot rest)
  end.

(** ** Numbers *)

(** [max(a, b)] of two arguments: Python keeps [a] unless [b > a]. *)
Definition py_max (a b : float) : float := if (a <? b)%float then b else a.

(** [min(a, b)] of two arguments: Python keeps [a] unless [b < a]. *)
Definition py_min (a b : float) : float := if (b <? a)%float then b else a.

(** [float(n)] of an [int], rounded to nearest; Python compares and multiplies
    an [int] with a [float] through it (exactly so up to 2^53 in magnitude). *)
Definition float_of_int (n : Z) : float :=
  SF2Prim (binary_normalize prec emax n 0 false).

(** The float of a count, an [int] that is never negative. *)
Definition float_of_count (n : nat) : float := float_of_int (Z.of_nat n).

(** ** Exceptions *)

Inductive exn : Type :=
  | AttributeError
  | OSError
  | YAMLError.

Inductive result (A : Type) : Type :=
  | Ok (a : A)
  | Raise (e : exn).
Arguments Ok {A} a.
Arguments Raise {A} e.

#[global] Instance result_ret : MRet result := @Ok.
#[global] Instance result_bind : MBind result :=
  λ A B f m, match m with Ok a => f a | Raise e => Raise e end.

(** ** [models.py]: the story record *)

Record CyberGoodNews : Type := {
  id : option string;
  title : string;
  description : string;
  source : string;
  source_url : string;
  published_date : Z;
  collected_date : Z;
  category : string;
  impact_score : float;
  summary : option string;
  tags : option (list string);
  is_processed : bool;
  is_sent : bool
}.

(** Attribute assignments [story.f = v]. *)
Definition set_category (v : string) (s : CyberGoodNews) : CyberGoodNews :=
  {| id := id s; title := title s; description := description s;
     source := source s; source_url := source_url s;
     published_date := published_date s; collected_date := collected_date s;
     category := v; impact_score := impact_score s; summary := summary s;
     tags := tags s; is_processed := is_processed s; is_sent := is_sent s |}.

Definition set_impact_score (v : float) (s : CyberGoodNews) : CyberGoodNews :=
  {| id := id s; title := title s; description := description s;
     source := source s; source_url := source_url s;
     published_date := published_date s; collected_date := collected_date s;
     category := category s; impact_score := v; summary := summary s;
     tags := tags s; is_processed := is_processed s; is_sent := is_sent s |}.

Definition set_summary (v : option string) (s : CyberGoodNews) : CyberGoodNews :=
  {| id := id s; title := title s; description := description s;
     source := source s; source_url := source_url s;
     published_date := published_date s; collected_date := collected_date s;
     category := category s; impact_score := impact_score s; summary := v;
     tags := tags s; is_processed := is_processed s; is_sent := is_sent s |}.

Definition set_tags (v : option (list string)) (s : CyberGoodNews) : CyberGoodNews :=
  {| id := id s; title := title s; description := description s;
     source := source s; source_url := source_url s;
     published_date := published_date s; collected_date := collected_date s;
     category := category s; impact_score := impact_score s; summary := summary s;
     tags := v; is_processed := is_processed s; is_sent := is_sent s |}.

Definition set_is_processed (v : bool) (s : CyberGoodNews) : CyberGoodNews :=
  {| id := id s; title := title s; description := description s;
     source := source s; source_url := source_url s;
     published_date := published_date s; collected_date := collected_date s;
     category := category s; impact_score := impact_score s; summary := summary s;
     tags := tags s; is_processed := v; is_sent := is_sent s |}.

(** ** The rule lexicon *)

(** A scalar of the YAML document. *)
Inductive yaml_scalar : Type :=
  | YStr (s : string)
  | YInt (n : Z)
  | YBool (b : bool)
  | YNull.

(** One entry of [positive_categories]. *)
Record CategoryRule : Type := {
  cat_keywords : option (list yaml_scalar);
  cat_base_score : option float
}.

(** One entry of [impact_modifiers]. *)
Record ModifierRule : Type := {
  mod_keywords : option (list yaml_scalar);
  mod_modifier : option float
}.

(** The value of [positive_signals] and of [negative_indicators]. *)
Record KeywordRule : Type := {
  sig_keywords : option (list yaml_scalar)
}.

(** The rule set; [None] is an absent key. *)
Record Rules : Type := {
  positive_categories : option (list (string * CategoryRule));
  positive_signals : option KeywordRule;
  negative_indicators : option KeywordRule;
  impact_modifiers : option (list (string * ModifierRule))
}.

(** [rules.get(key, {}).get('keywords', [])]. *)
Definition signal_keywords (o : option KeywordRule) : list yaml_scalar :=
  match o with
  | Some r => default [] (sig_keywords r)
  | None => []
  end.

(** [_get_default_rules]. *)
Definition get_default_rules : Rules :=
  {| positive_categories := Some
       [ ("Security Wins",
          {| cat_keywords := Some [YStr "arrested"; YStr "takedown";
                                   YStr "dismantled"; YStr "seized"];
             cat_base_score := Some 7%float |});
         ("Innovation & Research",
          {| cat_keywords := Some [YStr "new tool"; YStr "open source";
                                   YStr "research"];
             cat_base_score := Some 6%float |}) ];
     positive_signals := None;
     negative_indicators := None;
     impact_modifiers := None |}.

(** What opening and parsing the scoring file produced. *)
Inductive load_outcome : Type :=
  | Loaded (doc : Rules)
  | LoadFailed (e : exn).

(** [_load_scoring_rules]: the document, or the defaults on any exception. *)
Definition load_scoring_rules (file : load_outcome) : Rules :=
  match file with
  | Loaded doc => doc
  | LoadFailed _ => get_default_rules
  end.

(** ** [positive_scorer.py]: counting keywords *)

(** [kw.lower()] on a lexicon entry; only a string has the method. *)
Definition kw_lower (kw : yaml_scalar) : result string :=
  match kw with
  | YStr s => Ok (lower s)
  | _ => Raise AttributeError
  end.

(** [kw.lower() in text]. *)
Definition kw_in (kw : yaml_scalar) (text : string) : result bool :=
  s ← kw_lower kw; mret (str_in s text).

(** [sum(1 for kw in keywords if kw.lower() in text)]. *)
Fixpoint count_matches (keywords : list yaml_scalar) (text : string) : result nat :=
  match keywords with
  | [] => Ok 0
  | kw :: rest =>
      b ← kw_in kw text;
      n ← count_matches rest text;
      mret (if b : bool then S n else n)
  end.

(** [any(kw.lower() in text for kw in keywords)], which stops at the first
    keyword found. *)
Fixpoint any_match (keywords : list yaml_scalar) (text : string) : result bool :=
  match keywords with
  | [] => Ok false
  | kw :: rest =>
      b ← kw_in kw text;
      if b : bool then Ok true else any_match rest text
  end.

(** ** [_categorize] *)

(** The loop of [_categorize] over [categories.items()], threading
    [best_match], [best_score] and [best_base]. *)
Fixpoint categorize_loop (categories : list (string * CategoryRule)) (text : string)
    (best_match : option string) (best_score : nat) (best_base : float)
    : result (option string * float) :=
  match categories with
  | [] => Ok (best_match, best_base)
  | (cat_name, cat_data) :: rest =>
      matches ← count_matches (default [] (cat_keywords cat_data)) text;
      if (best_score <? matches)%nat
      then categorize_loop rest text (Some cat_name) matches
             (default 5%float (cat_base_score cat_data))
      else categorize_loop rest text best_match best_score best_base
  end.

Definition categorize (rules : Rules) (text : string) : result (string * float) :=
  r ← categorize_loop (default [] (positive_categories rules)) text None 0 3%float;
  match r with
  | (None, _) => Ok ("Other", 3%float)
  | (Some best_match, best_base) => Ok (best_match, best_base)
  end.

(** ** [_calculate_impact] *)

Fixpoint calculate_impact_loop (modifiers : list (string * ModifierRule)) (text : string)
    (score : float) : result float :=
  match modifiers with
  | [] => Ok score
  | (_, mod_data) :: rest =>
      hit ← any_match (default [] (mod_keywords mod_data)) text;
      if hit : bool
      then calculate_impact_loop rest text
             (score + default 0%float (mod_modifier mod_data))%float
      else calculate_impact_loop rest text score
  end.

Definition calculate_impact (rules : Rules) (text : string) (base_score : float)
    : result float :=
  calculate_impact_loop (default [] (impact_modifiers rules)) text base_score.

(** ** [_extract_tags] *)

(** The two tags every classified story starts from. *)
Definition base_tags : gset string := {["cyber-good-news"; "security-positive"]}.

(** [list(tags)[:8]]; the order in which Python lists a set is not specified,
    the order of [elements] stands for it. *)
Definition tags_to_list (tags : gset string) : list string := take 8 (elements tags).

(** How a loop body leaves: to the next iteration, or out of the function. *)
Inductive flow (S R : Type) : Type :=
  | Next (s : S)
  | Return (r : R).
Arguments Next {S R} s.
Arguments Return {S R} r.

(** The inner loop of [_extract_tags], over the keywords of one category. *)
Fixpoint extract_tags_keywords (keywords : list yaml_scalar) (text : string)
    (tags : gset string) : result (flow (gset string) (list string)) :=
  match keywords with
  | [] => Ok (Next tags)
  | YStr kw :: rest =>
      if str_in (lower kw) text
      then
        let tags' := {[kw]} ∪ tags in
        if (8 <=? size tags')%nat
        then Ok (Return (tags_to_list tags'))
        else extract_tags_keywords rest text tags'
      else extract_tags_keywords rest text tags
  | _ :: _ => Raise AttributeError
  end.

(** The outer loop of [_extract_tags], over [categories.items()]. *)
Fixpoint extract_tags_loop (categories : list (string * CategoryRule)) (text : string)
    (tags : gset string) : result (list string) :=
  match categories with
  | [] => Ok (tags_to_list tags)
  | (_, cat_data) :: rest =>
      r ← extract_tags_keywords (default [] (cat_keywords cat_data)) text tags;
      match r with
      | Return l => Ok l
      | Next tags' => extract_tags_loop rest text tags'
      end
  end.

Definition extract_tags (rules : Rules) (text : string) : result (list string) :=
  extract_tags_loop (default [] (positive_categories rules)) text base_tags.

(** ** [_generate_summary] and [_get_impact_label] *)

Definition get_impact_label (score : float) : string :=
  if (8 <=? score)%float then "Outstanding"
  else if (6 <=? score)%float then "High"
  else if (4 <=? score)%float then "Moderate"
  else "Notable".

Definition generate_summary (story : CyberGoodNews) : string :=
  if (String.length (description story) <=? 200)%nat
  then description story
  else
    let label := get_impact_label (impact_score story) in
    let summary := label ++ " impact story in '" ++ category story ++ "'. " in
    let summary := summary ++ "Source: " ++ source story ++ ". " in
    match description story with
    | EmptyString => summary
    | _ =>
        let first_sentence := str_take 150 (before_dot (description story)) in
        summary ++ first_sentence ++ "."
    end.

(** ** [_analyze_story] *)

(** Computations that mutate one story and may raise: the story as it is when
    the computation ends is returned in both cases. *)
Definition Mut (A : Type) : Type := CyberGoodNews → result A * CyberGoodNews.

#[global] Instance Mut_ret : MRet Mut := λ A a story, (Ok a, story).
#[global] Instance Mut_bind : MBind Mut :=
  λ A B f m story,
    match m story with
    | (Ok a, story') => f a story'
    | (Raise e, story') => (Raise e, story')
    end.

(** Reading the story. *)
Definition get : Mut CyberGoodNews := λ story, (Ok story, story).

(** An attribute assignment. *)
Definition assign (f : CyberGoodNews → CyberGoodNews) : Mut unit :=
  λ story, (Ok tt, f story).

(** A call that does not touch the story. *)
Definition call {A : Type} (r : result A) : Mut A := λ story, (r, story).

Definition analyze_story (rules : Rules) : Mut unit :=
  story ← get;
  let text := lower (title story ++ " " ++ description story) in
  let title_text := lower (title story) in
  let positive_signals := signal_keywords (positive_signals rules) in
  title_pos ← call (count_matches positive_signals title_text);
  body_pos ← call (count_matches positive_signals text);
  let negative_keywords := signal_keywords (negative_indicators rules) in
  title_neg ← call (count_matches negative_keywords title_text);
  neg_count ← call (count_matches negative_keywords text);
  if (title_pos =? 0)%nat then
    assign (set_impact_score 0%float);;
    assign (set_category "Neutral")
  else if (title_pos <? title_neg)%nat then
    assign (set_impact_score 0%float);;
    assign (set_category "Negative")
  else
    '(category, base_score) ← call (categorize rules text);
    assign (set_category category);;
    score ← call (calculate_impact rules text base_score);
    assign (set_impact_score score);;
    (if (0 <? neg_count)%nat
     then story ← get;
          assign (set_impact_score
                    (impact_score story - float_of_count neg_count * 0.5)%float)
     else mret tt);;
    story ← get;
    assign (set_impact_score (py_min 10%float (py_max 0%float (impact_score story))));;
    tags ← call (extract_tags rules text);
    assign (set_tags (Some tags));;
    story ← get;
    assign (set_summary (Some (generate_summary story))).

(** ** [process_stories] *)

(** Story objects live in a store and the lists of [process_stories] hold
    references to them: the list that is returned shares its stories with the
    list that was passed. *)
Definition ref : Type := nat.
Abbreviation store := (ref → CyberGoodNews).

Section Process.

(** [Config.MIN_IMPACT_SCORE], an [int] read from the environment. *)
Variable MIN_IMPACT_SCORE : Z.

Variable rules : Rules.

(** The body of the [try] block for the story behind [r]: whether the story
    is appended to [processed], or the exception that left the block. *)
Definition process_story (r : ref) (σ : store) : result bool * store :=
  let '(outcome, σ) :=
    if negb (is_processed (σ r))
    then
      match analyze_story rules (σ r) with
      | (Ok _, story) => (Ok tt, <[r := set_is_processed true story]> σ)
      | (Raise e, story) => (Raise e, <[r := story]> σ)
      end
    else (Ok tt, σ) in
  match outcome with
  | Ok _ => (Ok (float_of_int MIN_IMPACT_SCORE <=? impact_score (σ r))%float, σ)
  | Raise e => (Raise e, σ)
  end.

(** The [for] loop, threading the store and the list [processed]. *)
Fixpoint process_loop (stories : list ref) (σ : store) (processed : list ref)
    : list ref * store :=
  match stories with
  | [] => (processed, σ)
  | r :: rest =>
      match process_story r σ with
      | (Ok true, σ') => process_loop rest σ' (processed ++ [r])
      | (Ok false, σ') => process_loop rest σ' processed
      | (Raise _, σ') => process_loop rest σ' processed
      end
  end.

Definition process_stories (stories : list ref) (σ : store) : list ref * store :=
  process_loop stories σ [].

End Process.

(** * Definitions for the statements *)

(** ** Counts, scores and categories *)

(** The entries of a keyword list are strings. *)
Definition all_str (keywords : list yaml_scalar) : bool :=
  forallb (λ kw, match kw with YStr _ => true | _ => false end) keywords.

(** A keyword, lower-cased, occurs in the text. *)
Definition present (text : string) (kw : yaml_scalar) : bool :=
  match kw with
  | YStr s => str_in (lower s) text
  | _ => false
  end.

(** The number of entries of a keyword list that occur in the text. *)
Definition matches (keywords : list yaml_scalar) (text : string) : nat :=
  length (List.filter (present text) keywords).

(** The text the classifier works on. *)
Definition story_text (story : CyberGoodNews) : string :=
  lower (title story ++ " " ++ description story).

(** The score after the penalty for [neg_count] negative indicators. *)
Definition penalised (score : float) (neg_count : nat) : float :=
  if (0 <? neg_count)%nat
  then (score - float_of_count neg_count * 0.5)%float
  else score.

(** The score a story that passes both gates ends with. *)
Definition final_score (score : float) (neg_count : nat) : float :=
  py_min 10 (py_max 0 (penalised score neg_count)).

(** The number of positions of [hay] at which [needle] starts: the
    occurrences of a keyword in a text. *)
Fixpoint occurrences (needle hay : string) : nat :=
  (if starts_with needle hay then 1 else 0) +
  match hay with
  | EmptyString => 0
  | String _ hay' => occurrences needle hay'
  end.

(** The occurrences of one keyword of a list. *)
Definition kw_occurrences (text : string) (kw : yaml_scalar) : nat :=
  match kw with
  | YStr s => occurrences (lower s) text
  | _ => 0
  end.

(** Every occurrence of every keyword of the list. *)
Definition total_occurrences (keywords : list yaml_scalar) (text : string) : nat :=
  list_sum (map (kw_occurrences text) keywords).

(** The entries of the list that occur at least once. *)
Definition keywords_occurring (keywords : list yaml_scalar) (text : string) : nat :=
  length (List.filter (λ kw, (0 <? kw_occurrences text kw)%nat) keywords).

(** The keywords of a category, [cat_data.get('keywords', [])]. *)
Definition category_keywords (c : string * CategoryRule) : list yaml_scalar :=
  default [] (cat_keywords c.2).

(** The match count of a category over the text. *)
Definition cat_matches (text : string) (c : string * CategoryRule) : nat :=
  matches (category_keywords c) text.

(** The keyword lists of all categories are lists of strings. *)
Definition categories_valid (categories : list (string * CategoryRule)) : bool :=
  forallb (λ c, all_str (category_keywords c)) categories.


(** The category at position [i] has the greatest match count, a count that
    is not zero, and no category declared before it reaches that count. *)
Definition first_best (categories : list (string * CategoryRule)) (text : string)
    (i : nat) (c : string * CategoryRule) : Prop :=
  categories !! i = Some c ∧
  0 < cat_matches text c ∧
  (∀ j c', categories !! j = Some c' → (cat_matches text c' ≤ cat_matches text c)%nat) ∧
  (∀ j c', j < i → categories !! j = Some c' → cat_matches text c' < cat_matches text c).

(** What the tag generator returns: at most 8 tags, the two base tags among
    them. *)
Definition tags_ok (l : list string) : Prop :=
  (length l ≤ 8)%nat ∧ "cyber-good-news" ∈ l ∧ "security-positive" ∈ l.

(** The fields of a story that the scoring engine only reads. *)
Definition same_inputs (s s' : CyberGoodNews) : Prop :=
  id s' = id s ∧ title s' = title s ∧ description s' = description s ∧
  source s' = source s ∧ source_url s' = source_url s ∧
  published_date s' = published_date s ∧ collected_date s' = collected_date s ∧
  is_sent s' = is_sent s.

(** ** Example stories and rule sets *)

(** A story as the feed collector builds it. *)
Definition collected (story_id title description : string) : CyberGoodNews :=
  {| id := Some story_id; title := title; description := description;
     source := "Krebs on Security"; source_url := "https://krebsonsecurity.com/";
     published_date := 0; collected_date := 0;
     category := "Uncategorized"; impact_score := 0%float;
     summary := None; tags := None; is_processed := false; is_sent := false |}.

(** A lexicon with the categories of the defaults and signal lists. *)
Definition example_rules : Rules :=
  {| positive_categories := positive_categories get_default_rules;
     positive_signals :=
       Some {| sig_keywords := Some [YStr "arrested"; YStr "Open Source"] |};
     negative_indicators :=
       Some {| sig_keywords := Some [YStr "breach"; YStr "ransomware"] |};
     impact_modifiers := None |}.

(** The same lexicon with a modifier whose keyword the YAML parser read as a
    number. *)
Definition year_modifier_rules : Rules :=
  {| positive_categories := positive_categories example_rules;
     positive_signals := positive_signals example_rules;
     negative_indicators := negative_indicators example_rules;
     impact_modifiers :=
       Some [("recent", {| mod_keywords := Some [YInt 2024];
                           mod_modifier := Some 1%float |})] |}.

Definition arrest_story : CyberGoodNews :=
  collected "a1" "Hackers arrested after breach" "The breach was contained".

Definition breach_story : CyberGoodNews :=
  collected "b2" "Massive data breach exposes millions" "hackers stole records".

Definition ransomware_story : CyberGoodNews :=
  collected "c3" "Hackers arrested after ransomware breach" "".

(** A story that an earlier call has classified. *)
Definition takedown_story : CyberGoodNews :=
  set_is_processed true
    (set_impact_score 9%float
       (set_category "Security Wins" (collected "d4" "Botnet takedown" ""))).

(** The store of the examples: one story behind every reference. *)
Definition one_story (s : CyberGoodNews) : store := λ _, s.

(** A story with one keyword of each of the two categories. *)
Definition research_story : CyberGoodNews :=
  collected "e5" "Hacker arrested" "New research on the case".

(** ** The outcome of one pass of the batch loop *)

Section BatchOutcome.

Variable MIN_IMPACT_SCORE : Z.
Variable rules : Rules.

(** [impact_score >= Config.MIN_IMPACT_SCORE]. *)
Definition meets_threshold (s : CyberGoodNews) : bool :=
  (float_of_int MIN_IMPACT_SCORE <=? impact_score s)%float.

(** The story that one pass of the loop body leaves behind a reference. *)
Definition story_after (s : CyberGoodNews) : CyberGoodNews :=
  if is_processed s then s
  else
    match analyze_story rules s with
    | (Ok _, s') => set_is_processed true s'
    | (Raise _, s') => s'
    end.

(** Whether one pass of the loop body appends the story. *)
Definition kept (s : CyberGoodNews) : bool :=
  if is_processed s then meets_threshold s
  else
    match analyze_story rules s with
    | (Ok _, s') => meets_threshold s'
    | (Raise _, _) => false
    end.

End BatchOutcome.

(** * The rest of the scoring engine *)

From Stdlib Require Import Sorted.

(** ** [_is_purely_negative] *)

Definition is_purely_negative (rules : Rules) (text : string) : result bool :=
  let negative_keywords := signal_keywords (negative_indicators rules) in
  let positive_signals := signal_keywords (positive_signals rules) in
  neg_count ← count_matches negative_keywords text;
  pos_count ← count_matches positive_signals text;
  mret ((2 <=? neg_count)%nat && (pos_count =? 0)%nat).

(** ** Definitions for the further statements *)


(** A story with two negative indicators and no positive signal. *)
Definition hospital_story : CyberGoodNews :=
  collected "f6" "Ransomware breach hits hospital" "Patient records were leaked".

(** The keyword [t] of the list occurs, lower-cased, in the text. *)
Definition keyword_in_text (text : string) (keywords : list yaml_scalar)
    (t : string) : Prop :=
  YStr t ∈ keywords ∧ str_in (lower t) text = true.

(** [t] is a keyword of some category that occurs in the text. *)
Definition category_keyword_in_text (text : string)
    (categories : list (string * CategoryRule)) (t : string) : Prop :=
  ∃ c, c ∈ categories ∧ keyword_in_text text (category_keywords c) t.

(** * [discord_notifier.py] *)

(** [story.is_sent = v]. *)
Definition set_is_sent (v : bool) (s : CyberGoodNews) : CyberGoodNews :=
  {| id := id s; title := title s; description := description s;
     source := source s; source_url := source_url s;
     published_date := published_date s; collected_date := collected_date s;
     category := category s; impact_score := impact_score s; summary := summary s;
     tags := tags s; is_processed := is_processed s; is_sent := v |}.

(** [_impact_to_color]. *)
Definition impact_to_color (score : float) : Z :=
  if (8 <=? score)%float then 0x00FF00%Z
  else if (6 <=? score)%float then 0x2ECC71%Z
  else if (4 <=? score)%float then 0x3498DB%Z
  else 0x9B59B6%Z.

(** [_impact_label] of the notifier. *)
Definition impact_label (score : float) : string :=
  if (8 <=? score)%float then "Outstanding"
  else if (6 <=? score)%float then "High Impact"
  else if (4 <=? score)%float then "Moderate"
  else "Notable".

(** [l[:n]] for an [int] [n]: a negative [n] counts from the end. *)
Definition py_slice_to {A : Type} (n : Z) (l : list A) : list A :=
  if (0 <=? n)%Z then take (Z.to_nat n) l
  else take (length l - Z.to_nat (- n)) l.

(** [sorted(l, key=lambda s: s.impact_score, reverse=True)]. The sort of
    Python compares keys with [<] only and is stable, also under
    [reverse=True]: a story is placed after the stories of the rest of the
    list whose score is greater than its own and before the others. *)
Fixpoint insert_by_score (σ : store) (r : ref) (sorted : list ref) : list ref :=
  match sorted with
  | [] => [r]
  | r' :: rest =>
      if (impact_score (σ r) <? impact_score (σ r'))%float
      then r' :: insert_by_score σ r rest
      else r :: r' :: rest
  end.

Definition sorted_by_score (σ : store) (l : list ref) : list ref :=
  foldr (insert_by_score σ) [] l.

(** The local [eligible] of [send_story_batch]. *)
Definition eligible (MIN_IMPACT_SCORE : Z) (σ : store) (stories : list ref)
    : list ref :=
  List.filter (λ r, meets_threshold MIN_IMPACT_SCORE (σ r)) stories.

(** The local [top_stories] of [send_story_batch]. *)
Definition top_stories (MIN_IMPACT_SCORE : Z) (σ : store) (stories : list ref)
    (max_alerts : Z) : list ref :=
  py_slice_to max_alerts (sorted_by_score σ (eligible MIN_IMPACT_SCORE σ stories)).

(** [send_story_alert]: the embed is built from the story without touching
    it; [delivered] says whether the POST to the webhook went through without
    an exception, and only then is the story marked sent. *)
Definition send_story_alert (delivered : bool) (r : ref) (σ : store) : store :=
  if delivered then <[r := set_is_sent true (σ r)]> σ else σ.

(** The loop of [send_story_batch]; [webhook k] is the outcome of the [k]-th
    POST of the batch. *)
Fixpoint send_loop (webhook : nat → bool) (sent_count : nat) (top : list ref)
    (σ : store) : store :=
  match top with
  | [] => σ
  | r :: rest =>
      send_loop webhook (S sent_count) rest (send_story_alert (webhook sent_count) r σ)
  end.

Definition send_story_batch (MIN_IMPACT_SCORE : Z) (webhook : nat → bool)
    (stories : list ref) (max_alerts : Z) (σ : store) : store :=
  send_loop webhook 0 (top_stories MIN_IMPACT_SCORE σ stories max_alerts) σ.

(** Stories listed from the highest score to the lowest. *)
Definition by_score_descending (σ : store) (l : list ref) : Prop :=
  Sorted (λ r r', (impact_score (σ r') <=? impact_score (σ r))%float = true) l.

(** A store with three stories of scores 6.0, 9.0 and 2.0. *)
Definition scored_stories : store :=
  λ r, match r with
       | 0 => set_impact_score 6%float arrest_story
       | 1 => takedown_story
       | _ => set_impact_score 2%float breach_story
       end.

(** * [database.py] *)

(** A row of the table [stories]; [None] is SQL [NULL]. SQLite stores a float
    that is NaN as [NULL]. *)
Record StoryRow : Type := {
  row_id : option string;
  row_title : string;
  row_description : string;
  row_source : string;
  row_source_url : string;
  row_published_date : string;
  row_collected_date : string;
  row_category : string;
  row_impact_score : option float;
  row_summary : option string;
  row_tags : option string;
  row_is_processed : Z;
  row_is_sent : Z
}.

(** [SET is_sent = v] on one row. *)
Definition set_row_is_sent (v : Z) (row : StoryRow) : StoryRow :=
  {| row_id := row_id row; row_title := row_title row;
     row_description := row_description row; row_source := row_source row;
     row_source_url := row_source_url row;
     row_published_date := row_published_date row;
     row_collected_date := row_collected_date row;
     row_category := row_category row; row_impact_score := row_impact_score row;
     row_summary := row_summary row; row_tags := row_tags row;
     row_is_processed := row_is_processed row; row_is_sent := v |}.

(** [WHERE id = ?]: a comparison with [NULL] holds for no row. *)
Definition row_has_id (story_id : option string) (row : StoryRow) : bool :=
  match story_id with
  | Some k => bool_decide (row_id row = Some k)
  | None => false
  end.

Section Database.

(** [datetime.isoformat] and [json.dumps] on a list of strings. *)
Variable isoformat : Z → string.
Variable json_dumps : list string → string.

(** The values [save_story] binds to the [INSERT]. *)
Definition story_row (story : CyberGoodNews) : StoryRow :=
  {| row_id := id story;
     row_title := title story;
     row_description := description story;
     row_source := source story;
     row_source_url := source_url story;
     row_published_date := isoformat (published_date story);
     row_collected_date := isoformat (collected_date story);
     row_category := category story;
     row_impact_score :=
       if PrimFloat.is_nan (impact_score story) then None
       else Some (impact_score story);
     row_summary := summary story;
     row_tags :=
       match tags story with
       | Some (t :: l) => Some (json_dumps (t :: l))
       | _ => None
       end;
     row_is_processed := if is_processed story then 1%Z else 0%Z;
     row_is_sent := if is_sent story then 1%Z else 0%Z |}.

(** [save_story]: the table is the list of its rows, oldest first. *)
Definition save_story (story : CyberGoodNews) (table : list StoryRow)
    : bool * list StoryRow :=
  if existsb (row_has_id (id story)) table
  then (false, table)
  else (true, (table ++ [story_row story])%list).

(** The loop of [save_stories], threading the table and [new_count]. *)
Fixpoint save_stories_loop (stories : list CyberGoodNews) (table : list StoryRow)
    (new_count : nat) : nat * list StoryRow :=
  match stories with
  | [] => (new_count, table)
  | story :: rest =>
      let '(saved, table') := save_story story table in
      save_stories_loop rest table' (if saved : bool then S new_count else new_count)
  end.

Definition save_stories (stories : list CyberGoodNews) (table : list StoryRow)
    : nat * list StoryRow :=
  save_stories_loop stories table 0.

End Database.

(** [mark_as_sent]. *)
Definition mark_as_sent (story_id : option string) (table : list StoryRow)
    : list StoryRow :=
  map (λ row, if row_has_id story_id row then set_row_is_sent 1 row else row) table.

(** No two rows of the table have the same id that is not [NULL], as the
    primary key of the table demands. *)
Definition unique_ids (table : list StoryRow) : Prop :=
  NoDup (omap row_id table).

(** The row stored under an id. *)
Definition find_row (k : string) (table : list StoryRow) : option StoryRow :=
  List.find (row_has_id (Some k)) table.

(** Stand-ins for the two library functions in the examples. *)
Definition example_isoformat (date : Z) : string := "2026-01-01T00:00:00".
Definition example_json_dumps (l : list string) : string :=
  "[" ++ String.concat ", " l ++ "]".

(** * [app.py]: one collection cycle *)

(** Two rows that agree on every column but [is_sent]. *)
Definition same_but_sent (row row' : StoryRow) : Prop :=
  set_row_is_sent 0 row = set_row_is_sent 0 row'.

Section AlertCycle.

(** [Config.MIN_IMPACT_SCORE] and [Config.MAX_ALERTS_PER_HOUR]. *)
Variable MIN_IMPACT_SCORE : Z.
Variable MAX_ALERTS_PER_HOUR : Z.

Variable rules : Rules.
Variable isoformat : Z → string.
Variable json_dumps : list string → string.

(** The local [unsent] of [collect_and_alert]. *)
Definition unsent_stories (σ : store) (positive_stories : list ref) : list ref :=
  List.filter
    (λ r, negb (is_sent (σ r)) && meets_threshold MIN_IMPACT_SCORE (σ r))
    positive_stories.

(** The loop [for story in unsent: if story.is_sent: mark_as_sent(story.id)]. *)
Definition mark_sent_stories (σ : store) (unsent : list ref)
    (table : list StoryRow) : list StoryRow :=
  fold_left (λ table r, if is_sent (σ r) then mark_as_sent (id (σ r)) table else table)
    unsent table.

(** The body of the [try] block of [collect_and_alert] for the stories one
    collector has returned: score, save, and alert when something new was
    saved. The counters that are only printed are left out. *)
Definition alert_new_stories (webhook : nat → bool) (stories : list ref)
    (σ : store) (table : list StoryRow) : store * list StoryRow :=
  match stories with
  | [] => (σ, table)
  | _ :: _ =>
      let '(positive_stories, σ) := process_stories MIN_IMPACT_SCORE rules stories σ in
      let '(new_count, table) :=
        save_stories isoformat json_dumps (map σ positive_stories) table in
      if (0 <? new_count)%nat then
        match unsent_stories σ positive_stories with
        | [] => (σ, table)
        | unsent =>
            let σ := send_story_batch MIN_IMPACT_SCORE webhook unsent
                       MAX_ALERTS_PER_HOUR σ in
            (σ, mark_sent_stories σ unsent table)
        end
      else (σ, table)
  end.

End AlertCycle.

(** A store as a collector leaves it: a story that will pass and stories that
    will not. *)
Definition feed_stories : store :=
  λ r, match r with
       | 0 => arrest_story
       | _ => breach_story
       end.

(** * Properties *)

(** ** Floats: the clamp *)

Lemma ltb_leb (a b : float) : (a <? b)%float = true → (a <=? b)%float = true.
Proof.
  rewrite ltb_spec, leb_spec. unfold SFltb, SFleb.
  destruct (SFcompare (Prim2SF a) (Prim2SF b)) as [[]|]; congruence.
Qed.

(** [min(10.0, max(0.0, x))] lies between 0 and 10 for every float [x], the
    infinities and NaN included. *)
Lemma clamp_range (x : float) :
  (0 <=? py_min 10 (py_max 0 x))%float = true ∧
  (py_min 10 (py_max 0 x) <=? 10)%float = true.
Proof.
  unfold py_max. destruct (0 <? x)%float eqn:Hpos.
  - unfold py_min. destruct (x <? 10)%float eqn:Hlt.
    + split; apply ltb_leb; assumption.
    + split; reflexivity.
  - split; reflexivity.
Qed.

(** The clamp at work: a score above the range, a score below it, NaN and
    the infinities. *)
Example final_score_examples :
  final_score 20 0 = 10%float ∧ final_score 1 5 = 0%float ∧
  final_score 7 1 = 6.5%float ∧ final_score nan 0 = 0%float ∧
  final_score infinity 3 = 10%float ∧ final_score neg_infinity 0 = 0%float.
Proof. repeat split. Qed.

(** ** Keyword lists *)

Lemma count_matches_ok (keywords : list yaml_scalar) (text : string) :
  all_str keywords = true → count_matches keywords text = Ok (matches keywords text).
Proof.
  unfold matches. induction keywords as [|kw rest IH]; simpl; [reflexivity|].
  intros [Hkw Hrest]%andb_prop. destruct kw; try discriminate.
  cbn. rewrite (IH Hrest). cbn. destruct (str_in (lower s) text); reflexivity.
Qed.

Lemma count_matches_raise (keywords : list yaml_scalar) (text : string) :
  all_str keywords = false → count_matches keywords text = Raise AttributeError.
Proof.
  induction keywords as [|kw rest IH]; simpl; [discriminate|].
  destruct kw; try reflexivity. simpl. intros Hrest.
  cbn. rewrite (IH Hrest). reflexivity.
Qed.

Lemma count_matches_inv (keywords : list yaml_scalar) (text : string) (n : nat) :
  count_matches keywords text = Ok n →
  all_str keywords = true ∧ n = matches keywords text.
Proof.
  destruct (all_str keywords) eqn:Hall.
  - rewrite (count_matches_ok _ _ Hall). intros [= <-]. split; reflexivity.
  - rewrite (count_matches_raise _ _ Hall). discriminate.
Qed.

(** Whether a count raises depends on the keyword list alone. *)
Lemma count_matches_text (keywords : list yaml_scalar) (text text' : string) (n : nat) :
  count_matches keywords text = Ok n →
  count_matches keywords text' = Ok (matches keywords text').
Proof.
  intros [Hall _]%count_matches_inv. apply count_matches_ok, Hall.
Qed.

(** ** The two gates *)

Ltac unfold_story_monad :=
  unfold mbind, Mut_bind, call, get, assign, mret, Mut_ret; cbn beta iota.

(** The counts with which [_analyze_story] starts, under keyword lists that
    are lists of strings. *)
Lemma analyze_story_counts (rules : Rules) (story : CyberGoodNews) :
  let pos := signal_keywords (positive_signals rules) in
  let neg := signal_keywords (negative_indicators rules) in
  all_str pos = true → all_str neg = true →
  count_matches pos (lower (title story)) = Ok (matches pos (lower (title story))) ∧
  count_matches pos (story_text story) = Ok (matches pos (story_text story)) ∧
  count_matches neg (lower (title story)) = Ok (matches neg (lower (title story))) ∧
  count_matches neg (story_text story) = Ok (matches neg (story_text story)).
Proof.
  intros pos neg Hpos Hneg. repeat split; apply count_matches_ok; assumption.
Qed.

(** C5. Gate 1: a story whose lower-cased title contains none of the
    positive-signal keywords is classified "Neutral" with impact score 0.0,
    whatever its description; nothing else of the story is written (no tags,
    no summary, no further scoring). *)
Theorem gate1_neutral (rules : Rules) (story : CyberGoodNews) :
  all_str (signal_keywords (positive_signals rules)) = true →
  all_str (signal_keywords (negative_indicators rules)) = true →
  matches (signal_keywords (positive_signals rules)) (lower (title story)) = 0 →
  analyze_story rules story
  = (Ok tt, set_category "Neutral" (set_impact_score 0 story)).
Proof.
  intros Hpos Hneg Hzero.
  destruct (analyze_story_counts rules story Hpos Hneg) as (H1 & H2 & H3 & H4).
  unfold story_text in *.
  unfold analyze_story. unfold_story_monad.
  rewrite H1, H2, H3, H4, Hzero. reflexivity.
Qed.

(** C6. Gate 2: a story whose lower-cased title contains at least one
    positive-signal keyword and strictly more negative-indicator keywords than
    positive-signal keywords is classified "Negative" with impact score 0.0;
    nothing else of the story is written. *)
Theorem gate2_negative (rules : Rules) (story : CyberGoodNews) :
  all_str (signal_keywords (positive_signals rules)) = true →
  all_str (signal_keywords (negative_indicators rules)) = true →
  0 < matches (signal_keywords (positive_signals rules)) (lower (title story)) →
  matches (signal_keywords (positive_signals rules)) (lower (title story))
  < matches (signal_keywords (negative_indicators rules)) (lower (title story)) →
  analyze_story rules story
  = (Ok tt, set_category "Negative" (set_impact_score 0 story)).
Proof.
  intros Hpos Hneg Hsome Hmore.
  destruct (analyze_story_counts rules story Hpos Hneg) as (H1 & H2 & H3 & H4).
  unfold story_text in *.
  unfold analyze_story. unfold_story_monad.
  rewrite H1, H2, H3, H4.
  destruct (Nat.eqb_spec (matches (signal_keywords (positive_signals rules))
                            (lower (title story))) 0) as [E|_]; [lia|].
  destruct (Nat.ltb_spec (matches (signal_keywords (positive_signals rules))
                            (lower (title story)))
              (matches (signal_keywords (negative_indicators rules))
                 (lower (title story)))) as [_|E]; [reflexivity|lia].
Qed.

(** ** The score *)

(** C7. Whenever the classifier completes on a story, the impact score it
    leaves in the story lies in the closed interval from 0.0 to 10.0: for
    every title, description and rule set, with base scores and modifiers
    that may be any float. *)
Theorem impact_score_clamped (rules : Rules) (story story' : CyberGoodNews) :
  analyze_story rules story = (Ok tt, story') →
  (0 <=? impact_score story')%float = true ∧
  (impact_score story' <=? 10)%float = true.
Proof.
  unfold analyze_story. unfold_story_monad.
  destruct (count_matches _ (lower (title story))) as [title_pos|]; [|discriminate].
  destruct (count_matches _ (lower (title story ++ " " ++ description story)))
    as [body_pos|]; [|discriminate].
  destruct (count_matches _ (lower (title story))) as [title_neg|]; [|discriminate].
  destruct (count_matches _ (lower (title story ++ " " ++ description story)))
    as [neg_count|]; [|discriminate].
  destruct (title_pos =? 0)%nat.
  { intros [= <-]. split; reflexivity. }
  destruct (title_pos <? title_neg)%nat.
  { intros [= <-]. split; reflexivity. }
  destruct (categorize rules _) as [[cat base]|]; [|discriminate].
  destruct (calculate_impact rules _ base) as [score|]; [|discriminate].
  destruct (0 <? neg_count)%nat; cbn;
    (destruct (extract_tags rules _) as [tgs|]; [|discriminate]);
    intros [= <-]; cbn; apply clamp_range.
Qed.

(** What [_analyze_story] does with a story that passes both gates. *)
Lemma analyze_story_scored (rules : Rules) (story : CyberGoodNews) :
  let pos := signal_keywords (positive_signals rules) in
  let neg := signal_keywords (negative_indicators rules) in
  all_str pos = true → all_str neg = true →
  0 < matches pos (lower (title story)) →
  (matches neg (lower (title story)) ≤ matches pos (lower (title story)))%nat →
  analyze_story rules story =
    match categorize rules (story_text story) with
    | Raise e => (Raise e, story)
    | Ok (cat, base) =>
        match calculate_impact rules (story_text story) base with
        | Raise e => (Raise e, set_category cat story)
        | Ok score =>
            let scored :=
              set_impact_score (final_score score (matches neg (story_text story)))
                (set_category cat story) in
            match extract_tags rules (story_text story) with
            | Raise e => (Raise e, scored)
            | Ok tgs =>
                let tagged := set_tags (Some tgs) scored in
                (Ok tt, set_summary (Some (generate_summary tagged)) tagged)
            end
        end
    end.
Proof.
  intros pos neg Hpos Hneg Hsome Hle.
  destruct (analyze_story_counts rules story Hpos Hneg) as (H1 & H2 & H3 & H4).
  fold pos neg in H1, H2, H3, H4. unfold story_text in *.
  unfold analyze_story. unfold_story_monad. fold pos neg.
  rewrite H1, H2, H3, H4.
  destruct (Nat.eqb_spec (matches pos (lower (title story))) 0) as [E|_]; [lia|].
  destruct (Nat.ltb_spec (matches pos (lower (title story)))
              (matches neg (lower (title story)))) as [E|_]; [lia|].
  destruct (categorize rules _) as [[cat base]|e]; [|reflexivity].
  cbn. destruct (calculate_impact rules _ base) as [score|e]; [|reflexivity].
  unfold final_score, penalised.
  destruct (matches neg (lower (title story ++ " " ++ description story))) as [|n];
    cbn; (destruct (extract_tags rules _) as [tgs|e]; reflexivity).
Qed.

(** ** The penalty and occurrences of a keyword *)

Lemma str_in_occurrences (needle hay : string) :
  str_in needle hay = (0 <? occurrences needle hay)%nat.
Proof.
  induction hay as [|c hay IH]; simpl.
  - destruct (starts_with needle ""); reflexivity.
  - rewrite IH. destruct (starts_with needle (String c hay)); simpl; [reflexivity|].
    reflexivity.
Qed.

Lemma matches_occurring (keywords : list yaml_scalar) (text : string) :
  matches keywords text = keywords_occurring keywords text.
Proof.
  unfold matches, keywords_occurring. f_equal. apply List.filter_ext.
  intros [s| | |]; simpl; try reflexivity. apply str_in_occurrences.
Qed.

Lemma keywords_occurring_le (keywords : list yaml_scalar) (text : string) :
  (keywords_occurring keywords text ≤ total_occurrences keywords text)%nat.
Proof.
  unfold keywords_occurring, total_occurrences.
  induction keywords as [|kw rest IH]; simpl; [lia|].
  destruct (Nat.ltb_spec 0 (kw_occurrences text kw)); simpl; lia.
Qed.

(** C2, as the code has it. For a story that passes both gates, the penalty
    is 0.5 times the number of negative-indicator keywords of the list that
    occur at least once in the full lower-cased text: the score left in the
    story is the category's base score with the modifiers applied, less that
    penalty, clamped. A keyword that occurs several times is counted once. *)
Theorem penalty_per_keyword (rules : Rules) (story story' : CyberGoodNews) :
  let pos := signal_keywords (positive_signals rules) in
  let neg := signal_keywords (negative_indicators rules) in
  analyze_story rules story = (Ok tt, story') →
  0 < matches pos (lower (title story)) →
  (matches neg (lower (title story)) ≤ matches pos (lower (title story)))%nat →
  ∃ cat base score,
    categorize rules (story_text story) = Ok (cat, base) ∧
    calculate_impact rules (story_text story) base = Ok score ∧
    impact_score story'
    = final_score score (keywords_occurring neg (story_text story)).
Proof.
  intros pos neg Hrun Hsome Hle.
  assert (all_str pos = true ∧ all_str neg = true) as [Hpos Hneg].
  { revert Hrun. unfold analyze_story. unfold_story_monad. fold pos neg.
    destruct (count_matches pos (lower (title story))) as [title_pos|] eqn:E1;
      [|discriminate].
    destruct (count_matches pos (lower (title story ++ " " ++ description story)))
      as [body_pos|]; [|discriminate].
    destruct (count_matches neg (lower (title story))) as [title_neg|] eqn:E3;
      [|discriminate].
    intros _. split; [apply (count_matches_inv _ _ _ E1)|apply (count_matches_inv _ _ _ E3)]. }
  rewrite (analyze_story_scored rules story Hpos Hneg Hsome Hle) in Hrun.
  fold neg in Hrun.
  destruct (categorize rules _) as [[cat base]|] eqn:Hcat; [|discriminate].
  destruct (calculate_impact rules _ base) as [score|] eqn:Hcalc; [|discriminate].
  cbn zeta in Hrun.
  destruct (extract_tags rules _) as [tgs|]; [|discriminate].
  injection Hrun as <-. exists cat, base, score.
  rewrite <- matches_occurring. repeat split; [exact Hcalc].
Qed.

(** ** Categorization *)

Lemma categorize_loop_keep categories text best_match best_score best_base :
  categories_valid categories = true →
  (∀ c, c ∈ categories → (cat_matches text c ≤ best_score)%nat) →
  categorize_loop categories text best_match best_score best_base
  = Ok (best_match, best_base).
Proof.
  induction categories as [|[name data] rest IH]; simpl; [reflexivity|].
  intros [Hc Hrest]%andb_prop Hle.
  change (all_str (default [] (cat_keywords data)) = true) in Hc.
  rewrite (count_matches_ok _ text Hc). unfold mbind, result_bind. cbv beta iota.
  assert (cat_matches text (name, data) ≤ best_score)%nat as Hhead
    by (apply Hle; left).
  unfold cat_matches, category_keywords in Hhead. simpl in Hhead.
  destruct (Nat.ltb_spec best_score (matches (default [] (cat_keywords data)) text));
    [lia|].
  apply IH; [assumption|]. intros c Hin. apply Hle. right. assumption.
Qed.

Lemma categorize_loop_best categories text i c :
  categories_valid categories = true →
  categories !! i = Some c →
  (∀ j c', categories !! j = Some c' → (cat_matches text c' ≤ cat_matches text c)%nat) →
  (∀ j c', j < i → categories !! j = Some c' → cat_matches text c' < cat_matches text c) →
  ∀ best_match best_score best_base,
    best_score < cat_matches text c →
    categorize_loop categories text best_match best_score best_base
    = Ok (Some c.1, default 5%float (cat_base_score c.2)).
Proof.
  revert i. induction categories as [|[name data] rest IH]; intros i Hvalid Hi Hmax Hfirst
    best_match best_score best_base Hbelow; [discriminate|].
  simpl in Hvalid. apply andb_prop in Hvalid as [Hc Hrest].
  change (all_str (default [] (cat_keywords data)) = true) in Hc.
  simpl. rewrite (count_matches_ok _ text Hc). unfold mbind, result_bind. cbv beta iota.
  change (matches (default [] (cat_keywords data)) text)
    with (cat_matches text (name, data)).
  destruct i as [|i]; simpl in Hi.
  - injection Hi as <-.
    destruct (Nat.ltb_spec best_score (cat_matches text (name, data))); [|lia].
    apply categorize_loop_keep; [assumption|].
    intros c' [j Hj]%list_elem_of_lookup. apply (Hmax (S j)). exact Hj.
  - assert (cat_matches text (name, data) < cat_matches text c) as Hhead
      by (apply (Hfirst 0); [lia|reflexivity]).
    assert (∀ j c', rest !! j = Some c' →
                    (cat_matches text c' ≤ cat_matches text c)%nat) as Hmax'
      by (intros j c' Hj; apply (Hmax (S j)); exact Hj).
    assert (∀ j c', j < i → rest !! j = Some c' →
                    cat_matches text c' < cat_matches text c) as Hfirst'
      by (intros j c' Hlt Hj; apply (Hfirst (S j)); [lia|exact Hj]).
    destruct (Nat.ltb_spec best_score (cat_matches text (name, data)));
      apply (IH i); assumption.
Qed.

(** The two cases of [_categorize]. *)
Lemma categorize_cases (rules : Rules) (text : string) :
  let categories := default [] (positive_categories rules) in
  categories_valid categories = true →
  ((∀ c, c ∈ categories → cat_matches text c = 0) →
   categorize rules text = Ok ("Other", 3%float)) ∧
  (∀ i c, first_best categories text i c →
   categorize rules text = Ok (c.1, default 5%float (cat_base_score c.2))).
Proof.
  intros categories Hvalid. unfold categorize. fold categories. split.
  - intros Hzero. rewrite categorize_loop_keep; [reflexivity|assumption|].
    intros c Hin. rewrite (Hzero c Hin). lia.
  - intros i c (Hi & Hpos & Hmax & Hfirst).
    rewrite (categorize_loop_best categories text i c); try assumption.
    reflexivity.
Qed.

(** One of the two cases always applies. *)
Lemma first_best_exists (categories : list (string * CategoryRule)) (text : string) :
  (∀ c, c ∈ categories → cat_matches text c = 0) ∨
  (∃ i c, first_best categories text i c).
Proof.
  induction categories as [|c0 rest IH].
  - left. intros c Hin. inversion Hin.
  - destruct IH as [Hzero|(i & c & Hi & Hpos & Hmax & Hfirst)].
    + destruct (cat_matches text c0) as [|n] eqn:E0.
      * left. intros c [->|Hin]%elem_of_cons; [exact E0|auto].
      * right. exists 0, c0. split; [reflexivity|]. split; [lia|]. split.
        -- intros [|j] c'; simpl.
           ++ intros [= <-]. lia.
           ++ intros Hj. rewrite (Hzero c'); [lia|].
              apply list_elem_of_lookup. eauto.
        -- intros j c' Hlt. lia.
    + destruct (Nat.lt_ge_cases (cat_matches text c0) (cat_matches text c)) as [Hlt|Hge].
      * right. exists (S i), c. split; [exact Hi|]. split; [exact Hpos|]. split.
        -- intros [|j] c'; simpl; [intros [= <-]; lia|apply Hmax].
        -- intros [|j] c' Hj; simpl; [intros [= <-]; lia|apply Hfirst; lia].
      * right. exists 0, c0. split; [reflexivity|]. split; [lia|]. split.
        -- intros [|j] c'; simpl; [intros [= <-]; lia|].
           intros Hj. specialize (Hmax j c' Hj). lia.
        -- intros j c' Hlt. lia.
Qed.

(** The first best category is determined by the rule set and the text. *)
Lemma first_best_unique categories text i c i' c' :
  first_best categories text i c → first_best categories text i' c' →
  i = i' ∧ c = c'.
Proof.
  intros (Hi & _ & Hmax & Hfirst) (Hi' & _ & Hmax' & Hfirst').
  assert (i = i') as <-.
  { destruct (Nat.lt_trichotomy i i') as [Hlt|[Heq|Hgt]]; [|exact Heq|].
    - pose proof (Hfirst' i c Hlt Hi). pose proof (Hmax i' c' Hi'). lia.
    - pose proof (Hfirst i' c' Hgt Hi'). pose proof (Hmax' i c Hi). lia. }
  split; [reflexivity|congruence].
Qed.

(** C9. With keyword lists that are lists of strings, either no category has
    a match over the text and [_categorize] returns "Other" with base score
    3.0, or it returns the category with the greatest match count, the one
    declared first among those with that count, with its base score (5.0
    when the category declares none). *)
Theorem categorize_first_best (rules : Rules) (text : string) :
  categories_valid (default [] (positive_categories rules)) = true →
  ((∀ c, c ∈ default [] (positive_categories rules) → cat_matches text c = 0) ∧
   categorize rules text = Ok ("Other", 3%float)) ∨
  (∃ i c, first_best (default [] (positive_categories rules)) text i c ∧
          categorize rules text = Ok (c.1, default 5%float (cat_base_score c.2))).
Proof.
  intros Hvalid. destruct (categorize_cases rules text Hvalid) as [Hnone Hbest].
  destruct (first_best_exists (default [] (positive_categories rules)) text)
    as [Hzero|(i & c & Hc)].
  - left. split; [exact Hzero|apply Hnone, Hzero].
  - right. exists i, c. split; [exact Hc|apply (Hbest i c Hc)].
Qed.

(** ** Tags *)

Lemma size_base_tags : size base_tags = 2.
Proof. reflexivity. Qed.

Lemma size_add_tag (kw : string) (tags : gset string) :
  (size ({[kw]} ∪ tags) ≤ S (size tags))%nat.
Proof.
  rewrite size_union_alt, size_singleton.
  pose proof (subseteq_size (tags ∖ {[kw]}) tags (subseteq_difference_l _ _ _ (reflexivity _))).
  lia.
Qed.

(** Listing a set of at most 8 tags loses none of them. *)
Lemma tags_to_list_full (tags : gset string) :
  (size tags ≤ 8)%nat →
  (length (tags_to_list tags) ≤ 8)%nat ∧ ∀ x, x ∈ tags → x ∈ tags_to_list tags.
Proof.
  intros Hsize. unfold tags_to_list.
  rewrite take_ge by exact Hsize. split; [exact Hsize|].
  intros x Hx. apply elem_of_elements. exact Hx.
Qed.

Lemma tags_to_list_ok (tags : gset string) :
  base_tags ⊆ tags → (size tags ≤ 8)%nat → tags_ok (tags_to_list tags).
Proof.
  intros Hbase Hsize. destruct (tags_to_list_full tags Hsize) as [Hlen Hin].
  split; [exact Hlen|]. split; apply Hin, Hbase; unfold base_tags; set_solver.
Qed.

Lemma extract_tags_keywords_ok keywords text tags r :
  base_tags ⊆ tags → size tags < 8 →
  extract_tags_keywords keywords text tags = Ok r →
  match r with
  | Return l => tags_ok l
  | Next tags' => base_tags ⊆ tags' ∧ size tags' < 8
  end.
Proof.
  revert tags r. induction keywords as [|kw rest IH]; intros tags r Hbase Hsize;
    cbn [extract_tags_keywords]; cbv zeta.
  - intros Heq; injection Heq as <-. split; assumption.
  - destruct kw as [kw| | |]; try discriminate.
    destruct (str_in (lower kw) text); [|apply IH; assumption].
    pose proof (size_add_tag kw tags) as Hadd.
    destruct (Nat.leb_spec 8 (size ({[kw]} ∪ tags))) as [Hfull|Hroom].
    + intros Heq; injection Heq as <-.
      apply tags_to_list_ok; [etrans; [exact Hbase|apply union_subseteq_r]|lia].
    + apply IH; [etrans; [exact Hbase|apply union_subseteq_r]|lia].
Qed.

Lemma extract_tags_loop_ok categories text tags l :
  base_tags ⊆ tags → size tags < 8 →
  extract_tags_loop categories text tags = Ok l → tags_ok l.
Proof.
  revert tags l. induction categories as [|[name data] rest IH];
    intros tags l Hbase Hsize; simpl.
  - intros Heq; injection Heq as <-. apply tags_to_list_ok; [assumption|lia].
  - destruct (extract_tags_keywords _ text tags) as [r|] eqn:Hr; [|discriminate].
    pose proof (extract_tags_keywords_ok _ _ _ _ Hbase Hsize Hr) as Hok.
    unfold mbind, result_bind. destruct r as [tags'|l'].
    + destruct Hok as [Hbase' Hsize']. apply IH; assumption.
    + intros Heq; injection Heq as <-. exact Hok.
Qed.

(** The tags a story that passes both gates is left with are those of the
    tag generator on the story's text. *)
Lemma analyze_story_tags (rules : Rules) (story story' : CyberGoodNews) :
  let pos := signal_keywords (positive_signals rules) in
  let neg := signal_keywords (negative_indicators rules) in
  0 < matches pos (lower (title story)) →
  (matches neg (lower (title story)) ≤ matches pos (lower (title story)))%nat →
  analyze_story rules story = (Ok tt, story') →
  ∀ l, extract_tags rules (story_text story) = Ok l → tags story' = Some l.
Proof.
  intros pos neg Hsome Hle Hrun l Hl.
  assert (all_str pos = true ∧ all_str neg = true) as [Hpos Hneg].
  { revert Hrun. unfold analyze_story. unfold_story_monad. fold pos neg.
    destruct (count_matches pos (lower (title story))) as [title_pos|] eqn:E1;
      [|discriminate].
    destruct (count_matches pos (lower (title story ++ " " ++ description story)))
      as [body_pos|]; [|discriminate].
    destruct (count_matches neg (lower (title story))) as [title_neg|] eqn:E3;
      [|discriminate].
    intros _. split; [apply (count_matches_inv _ _ _ E1)|apply (count_matches_inv _ _ _ E3)]. }
  rewrite (analyze_story_scored rules story Hpos Hneg Hsome Hle), Hl in Hrun.
  destruct (categorize rules _) as [[cat base]|]; [|discriminate].
  destruct (calculate_impact rules _ base) as [score|]; [|discriminate].
  injection Hrun as <-. reflexivity.
Qed.

(** C8. For every text and rule set, the list the tag generator returns has
    at most 8 tags and contains "cyber-good-news" and "security-positive";
    it is the list of tags left in every story with that text that passes
    both gates. *)
Theorem extract_tags_bound (rules : Rules) (text : string) (l : list string) :
  extract_tags rules text = Ok l →
  (length l ≤ 8)%nat ∧ "cyber-good-news" ∈ l ∧ "security-positive" ∈ l ∧
  ∀ story story',
    story_text story = text →
    0 < matches (signal_keywords (positive_signals rules)) (lower (title story)) →
    (matches (signal_keywords (negative_indicators rules)) (lower (title story))
     ≤ matches (signal_keywords (positive_signals rules)) (lower (title story)))%nat →
    analyze_story rules story = (Ok tt, story') →
    tags story' = Some l.
Proof.
  intros Hl.
  destruct (extract_tags_loop_ok (default [] (positive_categories rules))
              text base_tags l) as (Hlen & H1 & H2);
    [reflexivity|rewrite size_base_tags; lia|exact Hl|].
  repeat split; try assumption.
  intros story story' <- Hsome Hle Hrun.
  apply (analyze_story_tags rules story story' Hsome Hle Hrun l Hl).
Qed.

(** ** What the classifier writes *)

Lemma same_inputs_refl (s : CyberGoodNews) : same_inputs s s.
Proof. repeat split. Qed.

Lemma analyze_story_frame (rules : Rules) (story : CyberGoodNews) :
  same_inputs story (analyze_story rules story).2 ∧
  is_processed (analyze_story rules story).2 = is_processed story.
Proof.
  unfold analyze_story. unfold_story_monad.
  repeat match goal with
         | |- context [match ?x with _ => _ end] =>
             lazymatch x with
             | context [match _ with _ => _ end] => fail
             | _ => destruct x
             end
         end; cbn; repeat split.
Qed.

(** Running the classifier on the story it has left gives the same outcome
    and leaves the story as it is: what it writes depends on the title, the
    description and the source alone. *)
Lemma analyze_story_again (rules : Rules) (story : CyberGoodNews) :
  analyze_story rules (analyze_story rules story).2 = analyze_story rules story.
Proof.
  unfold analyze_story at 2 3. unfold_story_monad.
  destruct (count_matches (signal_keywords (positive_signals rules))
              (lower (title story))) as [title_pos|e] eqn:E1.
  2:{ cbn [snd]. unfold analyze_story. unfold_story_monad. rewrite E1. reflexivity. }
  destruct (count_matches (signal_keywords (positive_signals rules))
              (lower (title story ++ " " ++ description story)))
    as [body_pos|e] eqn:E2.
  2:{ cbn [snd]. unfold analyze_story. unfold_story_monad.
      rewrite E1, E2. reflexivity. }
  destruct (count_matches (signal_keywords (negative_indicators rules))
              (lower (title story))) as [title_neg|e] eqn:E3.
  2:{ cbn [snd]. unfold analyze_story. unfold_story_monad.
      rewrite E1, E2, E3. reflexivity. }
  destruct (count_matches (signal_keywords (negative_indicators rules))
              (lower (title story ++ " " ++ description story)))
    as [neg_count|e] eqn:E4.
  2:{ cbn [snd]. unfold analyze_story. unfold_story_monad.
      rewrite E1, E2, E3, E4. reflexivity. }
  destruct (title_pos =? 0)%nat eqn:G1.
  { cbn [snd]. unfold analyze_story. unfold_story_monad.
    cbn [title description set_category set_impact_score].
    rewrite E1, E2, E3, E4, G1. reflexivity. }
  destruct (title_pos <? title_neg)%nat eqn:G2.
  { cbn [snd]. unfold analyze_story. unfold_story_monad.
    cbn [title description set_category set_impact_score].
    rewrite E1, E2, E3, E4, G1, G2. reflexivity. }
  destruct (categorize rules _) as [[cat base]|e] eqn:C1.
  2:{ cbn [snd]. unfold analyze_story. unfold_story_monad.
      rewrite E1, E2, E3, E4, G1, G2, C1. reflexivity. }
  destruct (calculate_impact rules _ base) as [score|e] eqn:C2.
  2:{ cbn [snd]. unfold analyze_story. unfold_story_monad.
      cbn [title description set_category set_impact_score].
      rewrite E1, E2, E3, E4, G1, G2, C1, C2. reflexivity. }
  destruct (0 <? neg_count)%nat eqn:G3;
    (destruct (extract_tags rules _) as [tgs|e] eqn:C3;
     cbn [snd]; unfold analyze_story; unfold_story_monad;
     cbn [title description set_category set_impact_score set_tags set_summary];
     rewrite E1, E2, E3, E4, G1, G2, C1, C2, G3, C3; reflexivity).
Qed.

(** ** Exceptions of the classifier *)

Lemma categorize_loop_valid categories text best_match best_score best_base r :
  categorize_loop categories text best_match best_score best_base = Ok r →
  categories_valid categories = true.
Proof.
  revert best_match best_score best_base.
  induction categories as [|[name data] rest IH]; intros bm bs bb; simpl;
    [reflexivity|].
  destruct (count_matches (default [] (cat_keywords data)) text) as [n|] eqn:E;
    [|discriminate].
  apply count_matches_inv in E as [Hall _].
  unfold mbind, result_bind. cbv beta iota.
  change (all_str (category_keywords (name, data))) with
    (all_str (default [] (cat_keywords data))).
  rewrite Hall. simpl.
  destruct (bs <? n)%nat; apply IH.
Qed.

Lemma extract_tags_keywords_total keywords text tags :
  all_str keywords = true →
  ∃ r, extract_tags_keywords keywords text tags = Ok r.
Proof.
  revert tags. induction keywords as [|kw rest IH]; intros tags;
    cbn [extract_tags_keywords all_str forallb]; cbv zeta.
  - eauto.
  - intros [Hkw Hrest]%andb_prop. destruct kw as [kw| | |]; try discriminate.
    destruct (str_in (lower kw) text); [|apply IH; assumption].
    destruct (8 <=? size ({[kw]} ∪ tags))%nat; [eauto|apply IH; assumption].
Qed.

Lemma extract_tags_loop_total categories text tags :
  categories_valid categories = true →
  ∃ l, extract_tags_loop categories text tags = Ok l.
Proof.
  revert tags. induction categories as [|[name data] rest IH]; intros tags; simpl.
  - eauto.
  - intros [Hc Hrest]%andb_prop.
    destruct (extract_tags_keywords_total _ text tags Hc) as [r Hr].
    change (category_keywords (name, data)) with (default [] (cat_keywords data)) in Hr.
    rewrite Hr. unfold mbind, result_bind.
    destruct r as [tags'|l]; [apply IH; assumption|eauto].
Qed.

(** The tag generator reads the keyword lists that categorization has read:
    where categorization returns, the tag generator does. *)
Lemma extract_tags_total (rules : Rules) (text : string) (r : string * float) :
  categorize rules text = Ok r → ∃ l, extract_tags rules text = Ok l.
Proof.
  unfold categorize, extract_tags.
  destruct (categorize_loop _ text None 0 3%float) as [best|] eqn:E; [|discriminate].
  intros _. apply extract_tags_loop_total, (categorize_loop_valid _ _ _ _ _ _ E).
Qed.

(** The summary is the last field the classifier writes, on line 102: a
    classification that raises, wherever it raises, has not written it. *)
Lemma analyze_story_raise_summary (rules : Rules) (story story' : CyberGoodNews)
    (e : exn) :
  analyze_story rules story = (Raise e, story') →
  summary story' = summary story.
Proof.
  unfold analyze_story. unfold_story_monad.
  destruct (count_matches _ (lower (title story))) as [title_pos|];
    [|intros [= _ <-]; reflexivity].
  destruct (count_matches _ (lower (title story ++ " " ++ description story)))
    as [body_pos|]; [|intros [= _ <-]; reflexivity].
  destruct (count_matches _ (lower (title story))) as [title_neg|];
    [|intros [= _ <-]; reflexivity].
  destruct (count_matches _ (lower (title story ++ " " ++ description story)))
    as [neg_count|]; [|intros [= _ <-]; reflexivity].
  destruct (title_pos =? 0)%nat; [discriminate|].
  destruct (title_pos <? title_neg)%nat; [discriminate|].
  destruct (categorize rules _) as [[cat base]|];
    [|intros [= _ <-]; reflexivity].
  destruct (calculate_impact rules _ base) as [score|];
    [|intros [= _ <-]; reflexivity].
  destruct (0 <? neg_count)%nat;
    (destruct (extract_tags rules _) as [l|];
       [discriminate|intros [= _ <-]; reflexivity]).
Qed.

(** ** The batch *)

Section ProcessProperties.

Variable MIN_IMPACT_SCORE : Z.
Variable rules : Rules.

#[local] Abbreviation meets_threshold := (meets_threshold MIN_IMPACT_SCORE).
#[local] Abbreviation story_after := (story_after rules).
#[local] Abbreviation kept := (kept MIN_IMPACT_SCORE rules).

Lemma story_after_again (s : CyberGoodNews) :
  story_after (story_after s) = story_after s.
Proof.
  unfold story_after at 2 3. destruct (is_processed s) eqn:Hp.
  - unfold story_after. rewrite Hp. reflexivity.
  - pose proof (analyze_story_again rules s) as Hagain.
    destruct (analyze_story_frame rules s) as [_ Hflag].
    destruct (analyze_story rules s) as [[[]|e] s'] eqn:Hrun; simpl in *.
    + reflexivity.
    + unfold story_after. rewrite Hflag, Hp, Hagain. reflexivity.
Qed.

Lemma kept_after (s : CyberGoodNews) : kept (story_after s) = kept s.
Proof.
  unfold story_after, kept at 2. destruct (is_processed s) eqn:Hp.
  - unfold kept. rewrite Hp. reflexivity.
  - pose proof (analyze_story_again rules s) as Hagain.
    destruct (analyze_story_frame rules s) as [_ Hflag].
    destruct (analyze_story rules s) as [[[]|e] s'] eqn:Hrun; simpl in *.
    + reflexivity.
    + unfold kept. rewrite Hflag, Hp, Hagain. reflexivity.
Qed.

(** One pass of the loop body. *)
Lemma process_story_spec (r : ref) (σ : store) :
  (∀ r', (process_story MIN_IMPACT_SCORE rules r σ).2 r'
         = if decide (r' = r) then story_after (σ r) else σ r') ∧
  match (process_story MIN_IMPACT_SCORE rules r σ).1 with
  | Ok b => b = kept (σ r)
  | Raise _ => kept (σ r) = false
  end.
Proof.
  unfold process_story, story_after, kept, meets_threshold.
  destruct (is_processed (σ r)); simpl.
  - split; [|reflexivity]. intros r'. destruct (decide (r' = r)) as [->|]; reflexivity.
  - destruct (analyze_story rules (σ r)) as [[[]|e] s']; cbn [fst snd].
    + rewrite fn_lookup_insert. split; [|reflexivity].
      intros r'. destruct (decide (r' = r)) as [->|Hne].
      * apply fn_lookup_insert.
      * apply fn_lookup_insert_ne. congruence.
    + split; [|reflexivity].
      intros r'. destruct (decide (r' = r)) as [->|Hne].
      * apply fn_lookup_insert.
      * apply fn_lookup_insert_ne. congruence.
Qed.

(** The loop: the references appended are those of the stories that are
    kept, in the order of the input, and the store holds behind every
    reference of the input the story one pass leaves. *)
Lemma process_loop_spec (stories : list ref) (σ : store) (processed : list ref) :
  (process_loop MIN_IMPACT_SCORE rules stories σ processed).1
  = (processed ++ List.filter (λ r, kept (σ r)) stories)%list ∧
  ∀ r, (process_loop MIN_IMPACT_SCORE rules stories σ processed).2 r
       = if decide (r ∈ stories) then story_after (σ r) else σ r.
Proof.
  revert σ processed. induction stories as [|r0 rest IH]; intros σ processed.
  - simpl. rewrite app_nil_r. split; [reflexivity|].
    intros r. destruct (decide (r ∈ [])) as [Hin|_]; [inversion Hin|reflexivity].
  - destruct (process_story_spec r0 σ) as [Hstore Hres].
    assert (List.filter (λ r, kept ((process_story MIN_IMPACT_SCORE rules r0 σ).2 r)) rest
            = List.filter (λ r, kept (σ r)) rest) as Hfilter.
    { apply List.filter_ext. intros r. rewrite Hstore.
      destruct (decide (r = r0)) as [->|_]; [apply kept_after|reflexivity]. }
    assert (∀ acc r,
               (process_loop MIN_IMPACT_SCORE rules rest
                  (process_story MIN_IMPACT_SCORE rules r0 σ).2 acc).2 r
               = if decide (r ∈ r0 :: rest) then story_after (σ r) else σ r)
      as Hrest.
    { intros acc r. rewrite (proj2 (IH _ acc) r), !Hstore.
      destruct (decide (r = r0)) as [->|Hne].
      - destruct (decide (r0 ∈ r0 :: rest)) as [_|Hn]; [|exfalso; apply Hn; left].
        destruct (decide (r0 ∈ rest)); [apply story_after_again|reflexivity].
      - destruct (decide (r ∈ rest)) as [Hin|Hnin];
          destruct (decide (r ∈ r0 :: rest)) as [Hin'|Hnin']; try reflexivity.
        + exfalso. apply Hnin'. right. exact Hin.
        + apply elem_of_cons in Hin' as [?|?]; contradiction. }
    cbn [process_loop List.filter].
    destruct (process_story MIN_IMPACT_SCORE rules r0 σ) as [[[|]|e] σ'];
      simpl in Hres, Hfilter, Hrest; (split; [|apply Hrest]).
    + rewrite <- Hres, (proj1 (IH σ' _)), Hfilter, <- app_assoc. reflexivity.
    + rewrite <- Hres, (proj1 (IH σ' _)), Hfilter. reflexivity.
    + rewrite Hres, (proj1 (IH σ' _)), Hfilter. reflexivity.
Qed.

Lemma process_stories_spec (stories : list ref) (σ : store) :
  (process_stories MIN_IMPACT_SCORE rules stories σ).1
  = List.filter (λ r, kept (σ r)) stories ∧
  ∀ r, (process_stories MIN_IMPACT_SCORE rules stories σ).2 r
       = if decide (r ∈ stories) then story_after (σ r) else σ r.
Proof. apply (process_loop_spec stories σ []). Qed.

End ProcessProperties.

(** ** Already processed stories *)

(** C1, as the code has it. A story whose [is_processed] flag is set when
    [process_stories] is called is not classified again, the call leaves it
    as it is; it is still filtered by its score: it is in the list returned
    exactly when it is in the list passed and its impact score is at least
    [MIN_IMPACT_SCORE]. *)
Theorem processed_story_kept_by_score (MIN_IMPACT_SCORE : Z) (rules : Rules)
    (stories : list ref) (σ : store) (r : ref) :
  is_processed (σ r) = true →
  (process_stories MIN_IMPACT_SCORE rules stories σ).2 r = σ r ∧
  (r ∈ (process_stories MIN_IMPACT_SCORE rules stories σ).1 ↔
   r ∈ stories ∧ meets_threshold MIN_IMPACT_SCORE (σ r) = true).
Proof.
  intros Hp.
  destruct (process_stories_spec MIN_IMPACT_SCORE rules stories σ) as [Hout Hstore].
  rewrite Hout, Hstore. split.
  - unfold story_after. rewrite Hp. destruct (decide (r ∈ stories)); reflexivity.
  - rewrite !list_elem_of_In, List.filter_In. unfold kept. rewrite Hp. reflexivity.
Qed.

(** ** A classification that raises *)

(** C4, as the code has it. When the classification of a story of the batch
    raises, the story is not in the list returned and is not marked
    processed; it is left as the classifier left it when the exception was
    raised, with no roll-back: the fields the classifier had assigned by then
    keep their new values, the fields it never writes and the summary, which
    it writes last, are as before the call. Every story of the batch, before
    and after the failing one, is still processed: it is left as one pass of
    the loop leaves it and is returned exactly when that pass keeps it. *)
Theorem failed_story_excluded (MIN_IMPACT_SCORE : Z) (rules : Rules)
    (stories : list ref) (σ : store) (r : ref) (e : exn) (s' : CyberGoodNews) :
  r ∈ stories →
  is_processed (σ r) = false →
  analyze_story rules (σ r) = (Raise e, s') →
  (r ∉ (process_stories MIN_IMPACT_SCORE rules stories σ).1) ∧
  (process_stories MIN_IMPACT_SCORE rules stories σ).2 r = s' ∧
  is_processed s' = false ∧
  same_inputs (σ r) s' ∧
  summary s' = summary (σ r) ∧
  (∀ r', r' ∈ stories →
     (process_stories MIN_IMPACT_SCORE rules stories σ).2 r' = story_after rules (σ r') ∧
     (r' ∈ (process_stories MIN_IMPACT_SCORE rules stories σ).1 ↔
      kept MIN_IMPACT_SCORE rules (σ r') = true)).
Proof.
  intros Hin Hp Hrun.
  destruct (process_stories_spec MIN_IMPACT_SCORE rules stories σ) as [Hout Hstore].
  rewrite Hout. split; [|split; [|split; [|split; [|split]]]].
  - rewrite list_elem_of_In, List.filter_In. unfold kept. rewrite Hp, Hrun.
    intros [_ ?]. discriminate.
  - rewrite Hstore, decide_True by exact Hin.
    unfold story_after. rewrite Hp, Hrun. reflexivity.
  - destruct (analyze_story_frame rules (σ r)) as [_ Hflag].
    rewrite Hrun in Hflag. simpl in Hflag. congruence.
  - destruct (analyze_story_frame rules (σ r)) as [Hframe _].
    rewrite Hrun in Hframe. exact Hframe.
  - apply (analyze_story_raise_summary rules (σ r) s' e Hrun).
  - intros r' Hin'. split.
    + rewrite Hstore, decide_True by exact Hin'. reflexivity.
    + rewrite list_elem_of_In, List.filter_In, <- list_elem_of_In. tauto.
Qed.

(** ** The fields the engine does not write *)

(** C10. The classifier and the batch entry point leave the fields id, title,
    description, source, source_url, published_date, collected_date and
    is_sent of every story as they were: only category, impact_score, tags,
    summary and is_processed are ever written. *)
Theorem classification_frame (MIN_IMPACT_SCORE : Z) (rules : Rules)
    (story : CyberGoodNews) (stories : list ref) (σ : store) (r : ref) :
  same_inputs story (analyze_story rules story).2 ∧
  same_inputs (σ r) ((process_stories MIN_IMPACT_SCORE rules stories σ).2 r).
Proof.
  split; [apply analyze_story_frame|].
  rewrite (proj2 (process_stories_spec MIN_IMPACT_SCORE rules stories σ)).
  destruct (decide (r ∈ stories)); [|apply same_inputs_refl].
  unfold story_after. destruct (is_processed (σ r)); [apply same_inputs_refl|].
  pose proof (analyze_story_frame rules (σ r)) as [Hframe _].
  destruct (analyze_story rules (σ r)) as [[[]|err] s']; exact Hframe.
Qed.

(** ** The built-in rule set *)

(** C3, on the code. When the scoring file cannot be loaded the rule set is
    the built-in one; it has two categories and neither positive signals nor
    negative indicators, so that the keyword lists the classifier reads are
    empty, every story is classified "Neutral" with score 0.0, and no story
    that is classified under it passes the default threshold 5. *)
Theorem default_rules_without_signals (e : exn) (story : CyberGoodNews) :
  load_scoring_rules (LoadFailed e) = get_default_rules ∧
  length (default [] (positive_categories get_default_rules)) = 2 ∧
  signal_keywords (positive_signals (load_scoring_rules (LoadFailed e))) = [] ∧
  signal_keywords (negative_indicators (load_scoring_rules (LoadFailed e))) = [] ∧
  analyze_story (load_scoring_rules (LoadFailed e)) story
  = (Ok tt, set_category "Neutral" (set_impact_score 0 story)) ∧
  kept 5 (load_scoring_rules (LoadFailed e)) (set_is_processed false story) = false.
Proof. repeat split. Qed.

(** ** The statements at concrete stories *)

(** C1 fails as stated: a story that is already processed and has score 9.0
    is returned by a call with threshold 5. *)
Lemma processed_story_is_returned :
  is_processed (one_story takedown_story 0) = true ∧
  (process_stories 5 example_rules [0] (one_story takedown_story)).1 = [0].
Proof. split; reflexivity. Qed.

Lemma processed_story_kept_by_score_witness :
  (process_stories 5 example_rules [0] (one_story takedown_story)).2 0 = takedown_story ∧
  (0 ∈ (process_stories 5 example_rules [0] (one_story takedown_story)).1 ↔
   0 ∈ [0] ∧ meets_threshold 5 takedown_story = true).
Proof.
  apply (processed_story_kept_by_score 5 example_rules [0] (one_story takedown_story) 0).
  reflexivity.
Defined.

(** C2 fails as stated: "breach" occurs twice in the text of the story, the
    two occurrences would cost 1.0, and the story is left with 7.0 - 0.5. *)
Lemma repeated_keyword_penalised_once :
  matches (signal_keywords (positive_signals example_rules))
    (lower (title arrest_story)) = 1 ∧
  matches (signal_keywords (negative_indicators example_rules))
    (lower (title arrest_story)) = 1 ∧
  total_occurrences (signal_keywords (negative_indicators example_rules))
    (story_text arrest_story) = 2 ∧
  categorize example_rules (story_text arrest_story) = Ok ("Security Wins", 7%float) ∧
  calculate_impact example_rules (story_text arrest_story) 7 = Ok 7%float ∧
  final_score 7 2 = 6%float ∧
  impact_score (analyze_story example_rules arrest_story).2 = 6.5%float ∧
  impact_score (analyze_story example_rules arrest_story).2 ≠ final_score 7 2.
Proof.
  repeat split; try reflexivity.
  intros H. apply (f_equal (λ x, (x <=? 6)%float)) in H. vm_compute in H. discriminate.
Qed.

Lemma penalty_per_keyword_witness :
  ∃ cat base score,
    categorize example_rules (story_text arrest_story) = Ok (cat, base) ∧
    calculate_impact example_rules (story_text arrest_story) base = Ok score ∧
    impact_score (analyze_story example_rules arrest_story).2
    = final_score score
        (keywords_occurring (signal_keywords (negative_indicators example_rules))
           (story_text arrest_story)).
Proof.
  apply (penalty_per_keyword example_rules arrest_story
           (analyze_story example_rules arrest_story).2).
  - reflexivity.
  - vm_compute. lia.
  - vm_compute. lia.
Defined.

(** C4 fails as stated: the classification of the story raises on the
    keyword 2024 of the modifier, the story is not returned, and its category
    is no longer the one it had. *)
Lemma failed_story_has_new_category :
  analyze_story year_modifier_rules arrest_story
  = (Raise AttributeError, set_category "Security Wins" arrest_story) ∧
  (process_stories 5 year_modifier_rules [0] (one_story arrest_story)).1 = [] ∧
  category (one_story arrest_story 0) = "Uncategorized" ∧
  category ((process_stories 5 year_modifier_rules [0] (one_story arrest_story)).2 0)
  = "Security Wins".
Proof. repeat split. Qed.

Lemma failed_story_excluded_witness :
  (0 ∉ (process_stories 5 year_modifier_rules [0; 1] (one_story arrest_story)).1) ∧
  (process_stories 5 year_modifier_rules [0; 1] (one_story arrest_story)).2 0
  = set_category "Security Wins" arrest_story.
Proof.
  destruct (failed_story_excluded 5 year_modifier_rules [0; 1] (one_story arrest_story)
              0 AttributeError (set_category "Security Wins" arrest_story))
    as (Hout & Hstore & _).
  - left.
  - reflexivity.
  - reflexivity.
  - split; [exact Hout|exact Hstore].
Defined.

Lemma gate1_neutral_witness :
  analyze_story example_rules breach_story
  = (Ok tt, set_category "Neutral" (set_impact_score 0 breach_story)).
Proof. apply (gate1_neutral example_rules breach_story); reflexivity. Defined.

Lemma gate2_negative_witness :
  analyze_story example_rules ransomware_story
  = (Ok tt, set_category "Negative" (set_impact_score 0 ransomware_story)).
Proof.
  apply (gate2_negative example_rules ransomware_story);
    [reflexivity|reflexivity|vm_compute; lia|vm_compute; lia].
Defined.

Lemma impact_score_clamped_witness :
  (0 <=? impact_score (analyze_story example_rules arrest_story).2)%float = true ∧
  (impact_score (analyze_story example_rules arrest_story).2 <=? 10)%float = true.
Proof.
  apply (impact_score_clamped example_rules arrest_story
           (analyze_story example_rules arrest_story).2).
  reflexivity.
Defined.

(** A tie goes to the category declared first. *)
Example categorize_tie :
  cat_matches (story_text research_story) ("Security Wins",
    {| cat_keywords := Some [YStr "arrested"; YStr "takedown";
                             YStr "dismantled"; YStr "seized"];
       cat_base_score := Some 7%float |}) = 1 ∧
  cat_matches (story_text research_story) ("Innovation & Research",
    {| cat_keywords := Some [YStr "new tool"; YStr "open source"; YStr "research"];
       cat_base_score := Some 6%float |}) = 1 ∧
  categorize example_rules (story_text research_story) = Ok ("Security Wins", 7%float).
Proof. repeat split. Qed.

Lemma categorize_first_best_witness :
  ((∀ c, c ∈ default [] (positive_categories example_rules) →
         cat_matches (story_text research_story) c = 0) ∧
   categorize example_rules (story_text research_story) = Ok ("Other", 3%float)) ∨
  (∃ i c, first_best (default [] (positive_categories example_rules))
            (story_text research_story) i c ∧
          categorize example_rules (story_text research_story)
          = Ok (c.1, default 5%float (cat_base_score c.2))).
Proof.
  apply (categorize_first_best example_rules (story_text research_story)).
  reflexivity.
Defined.

Lemma extract_tags_bound_witness :
  ∃ l, extract_tags example_rules (story_text arrest_story) = Ok l ∧
       (length l ≤ 8)%nat ∧ "cyber-good-news" ∈ l ∧ "security-positive" ∈ l ∧
       tags (analyze_story example_rules arrest_story).2 = Some l.
Proof.
  eexists. split; [reflexivity|].
  destruct (extract_tags_bound example_rules (story_text arrest_story) _ eq_refl)
    as (Hlen & Hgood & Hpositive & Htags).
  split; [exact Hlen|]. split; [exact Hgood|]. split; [exact Hpositive|].
  apply (Htags arrest_story).
  - reflexivity.
  - vm_compute. lia.
  - vm_compute. lia.
  - reflexivity.
Defined.

(** * Further properties of the scoring engine *)

(** ** Titles and texts *)

Lemma lower_app (a b : string) : lower (a ++ b) = lower a ++ lower b.
Proof. induction a as [|c a IH]; simpl; [reflexivity|]. rewrite IH. reflexivity. Qed.

Lemma starts_with_app (needle a b : string) :
  starts_with needle a = true → starts_with needle (a ++ b) = true.
Proof.
  revert a. induction needle as [|c needle IH]; intros a; [reflexivity|].
  destruct a as [|d a]; simpl; [discriminate|].
  intros [Hc Hrest]%andb_prop. rewrite Hc. simpl. apply IH, Hrest.
Qed.

Lemma str_in_cons (needle : string) (c : ascii) (hay : string) :
  str_in needle (String c hay)
  = starts_with needle (String c hay) || str_in needle hay.
Proof. reflexivity. Qed.

Lemma str_in_app_l (needle a b : string) :
  str_in needle a = true → str_in needle (a ++ b) = true.
Proof.
  induction a as [|c a IH].
  - destruct needle; [|discriminate]. intros _. destruct b; reflexivity.
  - change (String c a ++ b) with (String c (a ++ b)).
    rewrite !str_in_cons. intros [H|H]%orb_prop.
    + apply (starts_with_app _ _ b) in H.
      change (String c a ++ b) with (String c (a ++ b)) in H.
      rewrite H. reflexivity.
    + rewrite (IH H). apply orb_true_r.
Qed.

(** A keyword that occurs in the title occurs in the text. *)
Lemma present_title_text (story : CyberGoodNews) (kw : yaml_scalar) :
  present (lower (title story)) kw = true → present (story_text story) kw = true.
Proof.
  destruct kw as [s| | |]; simpl; try discriminate.
  unfold story_text. rewrite lower_app. apply str_in_app_l.
Qed.

Lemma matches_mono (keywords : list yaml_scalar) (t1 t2 : string) :
  (∀ kw, present t1 kw = true → present t2 kw = true) →
  (matches keywords t1 ≤ matches keywords t2)%nat.
Proof.
  intros Hmono. unfold matches.
  induction keywords as [|kw rest IH]; simpl; [lia|].
  destruct (present t1 kw) eqn:E1.
  - rewrite (Hmono kw E1). simpl. lia.
  - destruct (present t2 kw); simpl; lia.
Qed.

(** X1. The count of a keyword list over the title of a story is at most its
    count over the full text: [title_pos <= body_pos] and
    [title_neg <= neg_count] in [_analyze_story]. *)
Theorem title_count_le_text_count (keywords : list yaml_scalar)
    (story : CyberGoodNews) (in_title in_text : nat) :
  count_matches keywords (lower (title story)) = Ok in_title →
  count_matches keywords (lower (title story ++ " " ++ description story)) = Ok in_text →
  (in_title ≤ in_text)%nat.
Proof.
  intros [_ ->]%count_matches_inv [_ ->]%count_matches_inv.
  apply matches_mono. intros kw. apply present_title_text.
Qed.

Lemma title_count_le_text_count_witness : (1 ≤ 1)%nat.
Proof.
  apply (title_count_le_text_count
           (signal_keywords (negative_indicators example_rules)) arrest_story 1 1);
    reflexivity.
Defined.

(** ** [_is_purely_negative] and the first gate *)

Lemma analyze_story_gate1 (rules : Rules) (story : CyberGoodNews) :
  all_str (signal_keywords (positive_signals rules)) = true →
  all_str (signal_keywords (negative_indicators rules)) = true →
  matches (signal_keywords (positive_signals rules)) (lower (title story)) = 0 →
  analyze_story rules story
  = (Ok tt, set_category "Neutral" (set_impact_score 0 story)).
Proof.
  intros Hpos Hneg Hzero.
  destruct (analyze_story_counts rules story Hpos Hneg) as (H1 & H2 & H3 & H4).
  unfold story_text in *. unfold analyze_story. unfold_story_monad.
  rewrite H1, H2, H3, H4, Hzero. reflexivity.
Qed.

(** X2. A story that [_is_purely_negative] calls purely negative (at least two
    negative indicators and no positive signal in its text) is classified
    "Neutral" with score 0.0 by [_analyze_story]: the first gate covers it. *)
Theorem purely_negative_is_neutral (rules : Rules) (story : CyberGoodNews) :
  is_purely_negative rules (lower (title story ++ " " ++ description story)) = Ok true →
  analyze_story rules story
  = (Ok tt, set_category "Neutral" (set_impact_score 0 story)).
Proof.
  unfold is_purely_negative.
  destruct (count_matches (signal_keywords (negative_indicators rules)) _)
    as [neg_count|] eqn:Eneg; [|discriminate].
  destruct (count_matches (signal_keywords (positive_signals rules)) _)
    as [pos_count|] eqn:Epos; [|discriminate].
  cbn. intros [= [_ Hzero%Nat.eqb_eq]%andb_prop]. subst pos_count.
  pose proof (count_matches_inv _ _ _ Eneg) as [Hneg _].
  pose proof (count_matches_inv _ _ _ Epos) as [Hpos Hnone].
  apply analyze_story_gate1; try assumption.
  pose proof (matches_mono (signal_keywords (positive_signals rules))
                (lower (title story)) (story_text story)
                (present_title_text story)) as Hle.
  unfold story_text in Hle. lia.
Qed.

Lemma purely_negative_is_neutral_witness :
  analyze_story example_rules hospital_story
  = (Ok tt, set_category "Neutral" (set_impact_score 0 hospital_story)).
Proof. apply (purely_negative_is_neutral example_rules hospital_story). reflexivity. Defined.

(** ** Keyword lists with entries that are not strings *)

(** X3. Counting the keywords of a list raises [AttributeError] exactly when
    some entry of the list is not a string, wherever the entry is and whatever
    the text; otherwise it returns the number of entries that, lower-cased,
    occur in the text. *)
Theorem count_matches_characterised (keywords : list yaml_scalar) (text : string) :
  count_matches keywords text
  = if all_str keywords then Ok (matches keywords text) else Raise AttributeError.
Proof.
  destruct (all_str keywords) eqn:Hall.
  - apply count_matches_ok, Hall.
  - apply count_matches_raise, Hall.
Qed.

(** X4. [any] stops at the first keyword found: the entries after it are not
    looked at, so that an entry that is not a string does no harm there, while
    counting the same list raises. *)
Theorem any_match_stops_at_first_hit (before after : list yaml_scalar)
    (kw : yaml_scalar) (text : string) :
  all_str before = true →
  present text kw = true →
  any_match (before ++ kw :: after) text = Ok true ∧
  (all_str after = false →
   count_matches (before ++ kw :: after) text = Raise AttributeError).
Proof.
  intros Hbefore Hkw. split.
  - induction before as [|b before IH]; simpl.
    + destruct kw as [s| | |]; try discriminate. cbn. simpl in Hkw.
      rewrite Hkw. reflexivity.
    + simpl in Hbefore. apply andb_prop in Hbefore as [Hb Hrest].
      destruct b as [s| | |]; try discriminate. cbn.
      destruct (str_in (lower s) text); [reflexivity|apply IH, Hrest].
  - intros Hafter. apply count_matches_raise.
    unfold all_str in *. rewrite forallb_app. simpl.
    rewrite Hafter, !andb_false_r. reflexivity.
Qed.

Lemma any_match_stops_at_first_hit_witness :
  any_match ([YStr "zero-day"] ++ YStr "arrested" :: [YInt 2024])
    (story_text arrest_story) = Ok true ∧
  (all_str [YInt 2024] = false →
   count_matches ([YStr "zero-day"] ++ YStr "arrested" :: [YInt 2024])
     (story_text arrest_story) = Raise AttributeError).
Proof.
  apply (any_match_stops_at_first_hit [YStr "zero-day"] [YInt 2024]
           (YStr "arrested") (story_text arrest_story)); reflexivity.
Defined.

(** ** Modifiers *)




(** ** Classifying twice *)

(** X6. Classifying a story that has been classified changes nothing: the
    second run has the outcome of the first and leaves every field as the
    first run left it, also when the classification raises. *)
Theorem classification_idempotent (rules : Rules) (story : CyberGoodNews) :
  analyze_story rules (analyze_story rules story).2 = analyze_story rules story.
Proof. apply analyze_story_again. Qed.

(** ** The tags that are returned *)

Lemma keyword_in_text_skip text kw rest t :
  present text kw = false →
  keyword_in_text text (kw :: rest) t ↔ keyword_in_text text rest t.
Proof.
  intros Hkw. unfold keyword_in_text. split.
  - intros [[<-|Hin]%elem_of_cons Ht]; [simpl in Hkw; congruence|auto].
  - intros [Hin Ht]. split; [right; exact Hin|exact Ht].
Qed.

Lemma extract_tags_keywords_spec keywords text tags r :
  size tags < 8 →
  extract_tags_keywords keywords text tags = Ok r →
  match r with
  | Next tags' =>
      size tags' < 8 ∧
      ∀ t, t ∈ tags' ↔ t ∈ tags ∨ keyword_in_text text keywords t
  | Return l =>
      length l = 8 ∧ NoDup l ∧
      ∀ t, t ∈ l → t ∈ tags ∨ keyword_in_text text keywords t
  end.
Proof.
  revert tags r. induction keywords as [|kw rest IH]; intros tags r Hsize;
    cbn [extract_tags_keywords]; cbv zeta.
  - intros Heq; injection Heq as <-. split; [exact Hsize|].
    intros t. split; [auto|]. intros [Ht|[Hin _]]; [exact Ht|inversion Hin].
  - destruct kw as [kw| | |]; try discriminate.
    destruct (str_in (lower kw) text) eqn:Hkw.
    + pose proof (size_add_tag kw tags) as Hadd.
      assert (∀ t, t ∈ ({[kw]} ∪ tags : gset string) →
                   t ∈ tags ∨ keyword_in_text text (YStr kw :: rest) t) as Hnew.
      { intros t [->%elem_of_singleton|Ht]%elem_of_union; [right|left; exact Ht].
        split; [left|exact Hkw]. }
      destruct (Nat.leb_spec 8 (size ({[kw]} ∪ tags))) as [Hfull|Hroom].
      * intros Heq; injection Heq as <-. unfold tags_to_list. split; [|split].
        -- rewrite length_take. change (length (elements ?X)) with (size X). lia.
        -- apply (sublist_NoDup _ (elements ({[kw]} ∪ tags)));
             [apply NoDup_elements|apply sublist_take].
        -- intros t Ht%subseteq_take%elem_of_elements. apply Hnew, Ht.
      * intros Hr. specialize (IH _ _ Hroom Hr). destruct r as [tags'|l].
        -- destruct IH as [Hsize' Hiff]. split; [exact Hsize'|].
           intros t. rewrite Hiff. split.
           ++ intros [Ht|[Hin Ht]]; [apply Hnew, Ht|].
              right. split; [right; exact Hin|exact Ht].
           ++ intros [Ht|[[[= ->]|Hin]%elem_of_cons Ht]].
              ** left. apply elem_of_union. right. exact Ht.
              ** left. apply elem_of_union. left. apply elem_of_singleton. reflexivity.
              ** right. split; assumption.
        -- destruct IH as (Hlen & Hnodup & Hsound). split; [exact Hlen|].
           split; [exact Hnodup|]. intros t Ht.
           destruct (Hsound t Ht) as [Ht'|[Hin Ht']]; [apply Hnew, Ht'|].
           right. split; [right; exact Hin|exact Ht'].
    + intros Hr. specialize (IH _ _ Hsize Hr).
      assert (present text (YStr kw) = false) as Hskip by exact Hkw.
      destruct r as [tags'|l].
      * destruct IH as [Hsize' Hiff]. split; [exact Hsize'|].
        intros t. rewrite Hiff, (keyword_in_text_skip _ _ _ _ Hskip). reflexivity.
      * destruct IH as (Hlen & Hnodup & Hsound). split; [exact Hlen|].
        split; [exact Hnodup|]. intros t Ht.
        rewrite (keyword_in_text_skip _ _ _ _ Hskip). apply Hsound, Ht.
Qed.

Lemma extract_tags_loop_spec categories text tags l :
  size tags < 8 →
  extract_tags_loop categories text tags = Ok l →
  NoDup l ∧
  (∀ t, t ∈ l → t ∈ tags ∨ category_keyword_in_text text categories t) ∧
  (length l < 8 →
   ∀ t, t ∈ tags ∨ category_keyword_in_text text categories t → t ∈ l).
Proof.
  revert tags l. induction categories as [|[name data] rest IH];
    intros tags l Hsize; simpl.
  - intros Heq; injection Heq as <-. unfold tags_to_list.
    rewrite take_ge by (change (length (elements tags)) with (size tags); lia).
    split; [apply NoDup_elements|]. split.
    + intros t Ht%elem_of_elements. left. exact Ht.
    + intros _ t [Ht|(c & Hc & _)]; [apply elem_of_elements, Ht|inversion Hc].
  - destruct (extract_tags_keywords _ text tags) as [r|] eqn:Hr; [|discriminate].
    pose proof (extract_tags_keywords_spec _ _ _ _ Hsize Hr) as Hspec.
    unfold mbind, result_bind. destruct r as [tags'|l'].
    + destruct Hspec as [Hsize' Hiff]. intros Hl.
      destruct (IH _ _ Hsize' Hl) as (Hnodup & Hsound & Hcomplete).
      split; [exact Hnodup|]. split.
      * intros t Ht. destruct (Hsound t Ht) as [Ht'|(c & Hc & Hkw)].
        -- apply Hiff in Ht' as [Ht'|Hkw]; [left; exact Ht'|].
           right. exists (name, data). split; [left|exact Hkw].
        -- right. exists c. split; [right; exact Hc|exact Hkw].
      * intros Hshort t Ht. apply (Hcomplete Hshort).
        destruct Ht as [Ht|(c & [->|Hc]%elem_of_cons & Hkw)].
        -- left. apply Hiff. left. exact Ht.
        -- left. apply Hiff. right. exact Hkw.
        -- right. exists c. split; assumption.
    + destruct Hspec as (Hlen & Hnodup & Hsound).
      intros Heq; injection Heq as <-. split; [exact Hnodup|]. split.
      * intros t Ht. destruct (Hsound t Ht) as [Ht'|Hkw]; [left; exact Ht'|].
        right. exists (name, data). split; [left|exact Hkw].
      * intros Hshort. lia.
Qed.

Lemma elem_of_base_tags (t : string) :
  t ∈ base_tags ↔ t = "cyber-good-news" ∨ t = "security-positive".
Proof. unfold base_tags. set_solver. Qed.

(** X8. The list of tags has no duplicates, and every tag in it is one of the
    two base tags or a keyword of a category, as the rule set spells it, that
    occurs lower-cased in the text: no keyword that is absent from the text
    becomes a tag. *)
Theorem extract_tags_sound (rules : Rules) (text : string) (l : list string) :
  extract_tags rules text = Ok l →
  NoDup l ∧
  ∀ t, t ∈ l →
    t = "cyber-good-news" ∨ t = "security-positive" ∨
    category_keyword_in_text text (default [] (positive_categories rules)) t.
Proof.
  intros Hl.
  destruct (extract_tags_loop_spec (default [] (positive_categories rules))
              text base_tags l) as (Hnodup & Hsound & _);
    [rewrite size_base_tags; lia|exact Hl|].
  split; [exact Hnodup|]. intros t Ht.
  destruct (Hsound t Ht) as [[?|?]%elem_of_base_tags|Hkw]; auto.
Qed.

Lemma extract_tags_sound_witness :
  NoDup ["security-positive"; "cyber-good-news"; "arrested"] ∧
  ∀ t, t ∈ ["security-positive"; "cyber-good-news"; "arrested"] →
    t = "cyber-good-news" ∨ t = "security-positive" ∨
    category_keyword_in_text (story_text arrest_story)
      (default [] (positive_categories example_rules)) t.
Proof.
  apply (extract_tags_sound example_rules (story_text arrest_story)). reflexivity.
Defined.

(** X9. When fewer than 8 tags are returned nothing was cut: every keyword of
    every category that occurs in the text is among the tags. *)
Theorem extract_tags_complete (rules : Rules) (text : string) (l : list string)
    (t : string) :
  extract_tags rules text = Ok l →
  length l < 8 →
  category_keyword_in_text text (default [] (positive_categories rules)) t →
  t ∈ l.
Proof.
  intros Hl Hshort Ht.
  destruct (extract_tags_loop_spec (default [] (positive_categories rules))
              text base_tags l) as (_ & _ & Hcomplete);
    [rewrite size_base_tags; lia|exact Hl|].
  apply (Hcomplete Hshort). right. exact Ht.
Qed.

Lemma extract_tags_complete_witness :
  "arrested" ∈ ["security-positive"; "cyber-good-news"; "arrested"].
Proof.
  apply (extract_tags_complete example_rules (story_text arrest_story) _ "arrested").
  - reflexivity.
  - simpl. lia.
  - exists ("Security Wins",
            {| cat_keywords := Some [YStr "arrested"; YStr "takedown";
                                     YStr "dismantled"; YStr "seized"];
               cat_base_score := Some 7%float |}).
    split; [left|]. split; [left|reflexivity].
Defined.

(** ** The summary *)

Lemma str_app_assoc (a b c : string) : (a ++ b) ++ c = a ++ (b ++ c).
Proof.
  induction a as [|x a IH]; [reflexivity|].
  change (String x ((a ++ b) ++ c) = String x (a ++ (b ++ c))).
  rewrite IH. reflexivity.
Qed.

Lemma starts_with_split (p s : string) :
  starts_with p s = true → ∃ rest, s = p ++ rest.
Proof.
  revert s. induction p as [|c p IH]; intros s; [exists s; reflexivity|].
  destruct s as [|d s]; simpl; [discriminate|].
  intros [Hc%Ascii.eqb_eq Hp]%andb_prop. subst d.
  destruct (IH s Hp) as [rest ->]. exists rest. reflexivity.
Qed.

Lemma starts_with_str_take (n : nat) (s : string) :
  starts_with (str_take n s) s = true.
Proof.
  revert s. induction n as [|n IH]; intros s; [reflexivity|].
  destruct s as [|c s]; simpl; [reflexivity|].
  rewrite Ascii.eqb_refl. apply IH.
Qed.

Lemma length_str_take (n : nat) (s : string) :
  (String.length (str_take n s) ≤ n)%nat.
Proof.
  revert s. induction n as [|n IH]; intros s; simpl; [lia|].
  destruct s as [|c s]; simpl; [lia|]. specialize (IH s). lia.
Qed.

Lemma starts_with_before_dot (s : string) : starts_with (before_dot s) s = true.
Proof.
  induction s as [|c s IH]; simpl; [reflexivity|].
  destruct (Ascii.eqb c "."); simpl; [reflexivity|].
  rewrite Ascii.eqb_refl. exact IH.
Qed.

Lemma before_dot_no_dot (s : string) : str_in "." (before_dot s) = false.
Proof.
  induction s as [|c s IH]; [reflexivity|].
  cbn [before_dot]. destruct (Ascii.eqb c ".") eqn:Hc; [reflexivity|].
  rewrite str_in_cons, IH. cbn [starts_with].
  rewrite Ascii.eqb_sym, Hc. reflexivity.
Qed.

(** A prefix of a text contains only what the text contains. *)
Lemma str_in_prefix (needle p s : string) :
  starts_with p s = true → str_in needle s = false → str_in needle p = false.
Proof.
  intros [rest ->]%starts_with_split Hs.
  destruct (str_in needle p) eqn:Hp; [|reflexivity].
  rewrite (str_in_app_l _ _ rest Hp) in Hs. discriminate.
Qed.

Lemma starts_with_trans (a b c : string) :
  starts_with a b = true → starts_with b c = true → starts_with a c = true.
Proof.
  intros [r1 ->]%starts_with_split [r2 ->]%starts_with_split.
  rewrite str_app_assoc. clear. induction a as [|x a IH]; simpl; [reflexivity|].
  rewrite Ascii.eqb_refl. exact IH.
Qed.

(** X10. The summary of a story is its description when that has at most 200
    characters. Otherwise it is the impact label, the category and the source
    followed by a sentence and a full stop, where the sentence is a prefix of
    the description of at most 150 characters without a full stop in it. *)
Theorem generate_summary_shape (story : CyberGoodNews) :
  if (String.length (description story) <=? 200)%nat
  then generate_summary story = description story
  else
    ∃ sentence,
      generate_summary story
      = get_impact_label (impact_score story) ++ " impact story in '" ++
        category story ++ "'. Source: " ++ source story ++ ". " ++
        sentence ++ "." ∧
      (String.length sentence ≤ 150)%nat ∧
      starts_with sentence (description story) = true ∧
      str_in "." sentence = false.
Proof.
  unfold generate_summary.
  destruct (String.length (description story) <=? 200)%nat eqn:Hlen; [reflexivity|].
  exists (str_take 150 (before_dot (description story))).
  split; [|split; [|split]].
  - destruct (description story) as [|c d] eqn:Hd; [discriminate|].
    cbv zeta. rewrite !str_app_assoc. reflexivity.
  - apply length_str_take.
  - apply (starts_with_trans _ (before_dot (description story)));
      [apply starts_with_str_take|apply starts_with_before_dot].
  - apply (str_in_prefix _ _ (before_dot (description story)));
      [apply starts_with_str_take|apply before_dot_no_dot].
Qed.

(** ** The batch *)

Lemma filter_sublist {A : Type} (f : A → bool) (l : list A) :
  List.filter f l `sublist_of` l.
Proof.
  induction l as [|x l IH]; simpl; [constructor|].
  destruct (f x); [apply sublist_skip|apply sublist_cons]; exact IH.
Qed.

Lemma kept_story_after (MIN_IMPACT_SCORE : Z) (rules : Rules) (s : CyberGoodNews) :
  kept MIN_IMPACT_SCORE rules s = true →
  is_processed (story_after rules s) = true ∧
  meets_threshold MIN_IMPACT_SCORE (story_after rules s) = true.
Proof.
  unfold kept, story_after. destruct (is_processed s) eqn:Hp; [auto|].
  destruct (analyze_story rules s) as [[[]|e] s']; [|discriminate].
  intros Hkept. split; [reflexivity|exact Hkept].
Qed.

(** X11. Every story that [process_stories] returns is marked processed and
    has, in the store the call leaves, an impact score of at least
    [MIN_IMPACT_SCORE]. *)
Theorem returned_stories_meet_threshold (MIN_IMPACT_SCORE : Z) (rules : Rules)
    (stories : list ref) (σ : store) (r : ref) :
  r ∈ (process_stories MIN_IMPACT_SCORE rules stories σ).1 →
  is_processed ((process_stories MIN_IMPACT_SCORE rules stories σ).2 r) = true ∧
  meets_threshold MIN_IMPACT_SCORE
    ((process_stories MIN_IMPACT_SCORE rules stories σ).2 r) = true.
Proof.
  destruct (process_stories_spec MIN_IMPACT_SCORE rules stories σ) as [Hout Hstore].
  rewrite Hout, Hstore, list_elem_of_In, List.filter_In, <- list_elem_of_In.
  intros [Hin Hkept]. rewrite decide_True by exact Hin.
  apply kept_story_after, Hkept.
Qed.

Lemma returned_stories_meet_threshold_witness :
  is_processed ((process_stories 5 example_rules [0] (one_story arrest_story)).2 0)
  = true ∧
  meets_threshold 5 ((process_stories 5 example_rules [0] (one_story arrest_story)).2 0)
  = true.
Proof.
  apply (returned_stories_meet_threshold 5 example_rules [0] (one_story arrest_story) 0).
  vm_compute. left.
Defined.

(** X12. The list that [process_stories] returns is a sublist of the list it
    is passed: it holds no other story, and the stories it keeps are in the
    order of the input. *)
Theorem returned_stories_sublist (MIN_IMPACT_SCORE : Z) (rules : Rules)
    (stories : list ref) (σ : store) :
  (process_stories MIN_IMPACT_SCORE rules stories σ).1 `sublist_of` stories.
Proof.
  rewrite (proj1 (process_stories_spec MIN_IMPACT_SCORE rules stories σ)).
  apply filter_sublist.
Qed.

(** X13. A story that is not in the list passed to [process_stories] is not
    touched by the call. *)
Theorem other_stories_untouched (MIN_IMPACT_SCORE : Z) (rules : Rules)
    (stories : list ref) (σ : store) (r : ref) :
  r ∉ stories →
  (process_stories MIN_IMPACT_SCORE rules stories σ).2 r = σ r.
Proof.
  intros Hnot.
  rewrite (proj2 (process_stories_spec MIN_IMPACT_SCORE rules stories σ)).
  rewrite decide_False by exact Hnot. reflexivity.
Qed.

Lemma other_stories_untouched_witness :
  (process_stories 5 example_rules [0] (one_story arrest_story)).2 1 = arrest_story.
Proof.
  apply (other_stories_untouched 5 example_rules [0] (one_story arrest_story) 1).
  intros Hin. apply list_elem_of_In in Hin. simpl in Hin. lia.
Defined.

(** X14. A story of the batch that was processed already, or whose
    classification completes, is marked processed when [process_stories]
    returns, and it is returned exactly when the score it is left with is at
    least [MIN_IMPACT_SCORE]. *)
Theorem classified_story_returned_by_score (MIN_IMPACT_SCORE : Z) (rules : Rules)
    (stories : list ref) (σ : store) (r : ref) :
  r ∈ stories →
  is_processed (σ r) = true ∨ (analyze_story rules (σ r)).1 = Ok tt →
  is_processed ((process_stories MIN_IMPACT_SCORE rules stories σ).2 r) = true ∧
  (r ∈ (process_stories MIN_IMPACT_SCORE rules stories σ).1 ↔
   meets_threshold MIN_IMPACT_SCORE
     ((process_stories MIN_IMPACT_SCORE rules stories σ).2 r) = true).
Proof.
  intros Hin Hrun.
  destruct (process_stories_spec MIN_IMPACT_SCORE rules stories σ) as [Hout Hstore].
  rewrite Hout, Hstore, decide_True by exact Hin.
  rewrite list_elem_of_In, List.filter_In, <- list_elem_of_In.
  unfold story_after, kept. destruct (is_processed (σ r)) eqn:Hp.
  - split; [exact Hp|tauto].
  - destruct Hrun as [Hrun|Hrun]; [discriminate|].
    destruct (analyze_story rules (σ r)) as [[[]|e] s']; [|discriminate].
    split; [reflexivity|]. simpl. tauto.
Qed.

Lemma classified_story_returned_by_score_witness :
  is_processed ((process_stories 5 example_rules [0] (one_story breach_story)).2 0)
  = true ∧
  (0 ∈ (process_stories 5 example_rules [0] (one_story breach_story)).1 ↔
   meets_threshold 5
     ((process_stories 5 example_rules [0] (one_story breach_story)).2 0) = true).
Proof.
  apply (classified_story_returned_by_score 5 example_rules [0]
           (one_story breach_story) 0).
  - left.
  - right. vm_compute. reflexivity.
Defined.

(** X15. Calling [process_stories] again on the same list returns the same
    stories and leaves every story as the first call left it. *)
Theorem process_stories_twice (MIN_IMPACT_SCORE : Z) (rules : Rules)
    (stories : list ref) (σ : store) :
  (process_stories MIN_IMPACT_SCORE rules stories
     (process_stories MIN_IMPACT_SCORE rules stories σ).2).1
  = (process_stories MIN_IMPACT_SCORE rules stories σ).1 ∧
  ∀ r, (process_stories MIN_IMPACT_SCORE rules stories
          (process_stories MIN_IMPACT_SCORE rules stories σ).2).2 r
       = (process_stories MIN_IMPACT_SCORE rules stories σ).2 r.
Proof.
  destruct (process_stories_spec MIN_IMPACT_SCORE rules stories σ) as [Hout Hstore].
  destruct (process_stories_spec MIN_IMPACT_SCORE rules stories
              (process_stories MIN_IMPACT_SCORE rules stories σ).2) as [Hout' Hstore'].
  split.
  - rewrite Hout', Hout. apply List.filter_ext_in.
    intros r Hin%list_elem_of_In. rewrite Hstore, decide_True by exact Hin.
    apply kept_after.
  - intros r. rewrite Hstore', !Hstore.
    destruct (decide (r ∈ stories)); [apply story_after_again|reflexivity].
Qed.

(** * Properties of the notifier *)

(** ** Bands of the impact score *)

(** X16. The colour of an alert, the label of the alert and the label the
    scorer writes into a summary are chosen by the same three thresholds: a
    score is Outstanding, High, Moderate or Notable in all three at once (the
    notifier writes "High Impact" where the scorer writes "High"), and a score
    that is NaN is Notable. *)
Theorem impact_bands_agree (score : float) :
  ((8 <=? score)%float = true ∧ impact_to_color score = 0x00FF00%Z ∧
   impact_label score = "Outstanding" ∧ get_impact_label score = "Outstanding") ∨
  ((8 <=? score)%float = false ∧ (6 <=? score)%float = true ∧
   impact_to_color score = 0x2ECC71%Z ∧
   impact_label score = "High Impact" ∧ get_impact_label score = "High") ∨
  ((6 <=? score)%float = false ∧ (4 <=? score)%float = true ∧
   impact_to_color score = 0x3498DB%Z ∧
   impact_label score = "Moderate" ∧ get_impact_label score = "Moderate") ∨
  ((4 <=? score)%float = false ∧ impact_to_color score = 0x9B59B6%Z ∧
   impact_label score = "Notable" ∧ get_impact_label score = "Notable").
Proof.
  unfold impact_to_color, impact_label, get_impact_label.
  destruct (8 <=? score)%float eqn:H8; [left; auto|].
  destruct (6 <=? score)%float eqn:H6; [right; left; auto|].
  destruct (4 <=? score)%float eqn:H4; [right; right; left; auto|].
  right. right. right. auto.
Qed.

(** ** Sending a batch *)

Lemma insert_by_score_elem_of σ r l x :
  x ∈ insert_by_score σ r l ↔ x = r ∨ x ∈ l.
Proof.
  induction l as [|r' rest IH]; simpl.
  - rewrite list_elem_of_singleton. split; [auto|]. intros [?|H]; [auto|inversion H].
  - destruct (impact_score (σ r) <? impact_score (σ r'))%float.
    + rewrite !elem_of_cons, IH. tauto.
    + rewrite !elem_of_cons. tauto.
Qed.

Lemma length_insert_by_score σ r l :
  length (insert_by_score σ r l) = S (length l).
Proof.
  induction l as [|r' rest IH]; simpl; [reflexivity|].
  destruct (impact_score (σ r) <? impact_score (σ r'))%float; simpl; [|reflexivity].
  rewrite IH. reflexivity.
Qed.

Lemma sorted_by_score_elem_of σ l x : x ∈ sorted_by_score σ l ↔ x ∈ l.
Proof.
  induction l as [|r rest IH]; simpl; [reflexivity|].
  rewrite insert_by_score_elem_of, elem_of_cons, IH. reflexivity.
Qed.

Lemma length_sorted_by_score σ l : length (sorted_by_score σ l) = length l.
Proof.
  induction l as [|r rest IH]; simpl; [reflexivity|].
  rewrite length_insert_by_score, IH. reflexivity.
Qed.

Lemma py_slice_to_sublist {A : Type} (n : Z) (l : list A) :
  py_slice_to n l `sublist_of` l.
Proof. unfold py_slice_to. destruct (0 <=? n)%Z; apply sublist_take. Qed.

Lemma top_stories_eligible MIN_IMPACT_SCORE σ stories max_alerts r :
  r ∈ top_stories MIN_IMPACT_SCORE σ stories max_alerts →
  r ∈ stories ∧ meets_threshold MIN_IMPACT_SCORE (σ r) = true.
Proof.
  unfold top_stories, eligible. intros Hin.
  apply (sublist_subseteq _ _ (py_slice_to_sublist _ _)) in Hin.
  apply sorted_by_score_elem_of in Hin.
  rewrite list_elem_of_In, List.filter_In, <- list_elem_of_In in Hin. exact Hin.
Qed.

Lemma send_loop_spec webhook k top σ r :
  send_loop webhook k top σ r = σ r ∨
  (r ∈ top ∧ send_loop webhook k top σ r = set_is_sent true (σ r)).
Proof.
  revert k σ. induction top as [|r0 rest IH]; intros k σ; simpl; [left; reflexivity|].
  destruct (IH (S k) (send_story_alert (webhook k) r0 σ)) as [Hsame|[Hin Hsent]].
  - rewrite Hsame. unfold send_story_alert. destruct (webhook k); [|left; reflexivity].
    destruct (decide (r0 = r)) as [->|Hne].
    + right. rewrite fn_lookup_insert. split; [left|reflexivity].
    + left. apply fn_lookup_insert_ne, Hne.
  - right. split; [right; exact Hin|]. rewrite Hsent.
    unfold send_story_alert. destruct (webhook k); [|reflexivity].
    destruct (decide (r0 = r)) as [->|Hne].
    + rewrite fn_lookup_insert. reflexivity.
    + rewrite fn_lookup_insert_ne by exact Hne. reflexivity.
Qed.

Lemma send_story_batch_effect (MIN_IMPACT_SCORE : Z) (webhook : nat → bool)
    (stories : list ref) (max_alerts : Z) (σ : store) (r : ref) :
  send_story_batch MIN_IMPACT_SCORE webhook stories max_alerts σ r = σ r ∨
  (send_story_batch MIN_IMPACT_SCORE webhook stories max_alerts σ r
   = set_is_sent true (σ r) ∧
   r ∈ stories ∧ meets_threshold MIN_IMPACT_SCORE (σ r) = true).
Proof.
  unfold send_story_batch.
  destruct (send_loop_spec webhook 0
              (top_stories MIN_IMPACT_SCORE σ stories max_alerts) σ r)
    as [Hsame|[Hin Hsent]]; [left; exact Hsame|].
  right. split; [exact Hsent|]. apply (top_stories_eligible _ _ _ _ _ Hin).
Qed.

(** X17. [send_story_batch] only ever sets [is_sent]: it leaves a story as it
    is or sets its [is_sent] to true, and it does the latter only for stories
    of the list it is passed whose impact score is at least
    [MIN_IMPACT_SCORE]. No story is unmarked and no other field is written. *)
Theorem send_story_batch_marks_eligible (MIN_IMPACT_SCORE : Z)
    (webhook : nat → bool) (stories : list ref) (max_alerts : Z) (σ : store)
    (r : ref) :
  send_story_batch MIN_IMPACT_SCORE webhook stories max_alerts σ r = σ r ∨
  (send_story_batch MIN_IMPACT_SCORE webhook stories max_alerts σ r
   = set_is_sent true (σ r) ∧
   r ∈ stories ∧ meets_threshold MIN_IMPACT_SCORE (σ r) = true).
Proof.
  unfold send_story_batch.
  destruct (send_loop_spec webhook 0
              (top_stories MIN_IMPACT_SCORE σ stories max_alerts) σ r)
    as [Hsame|[Hin Hsent]]; [left; exact Hsame|].
  right. split; [exact Hsent|]. apply (top_stories_eligible _ _ _ _ _ Hin).
Qed.

(** X18. With a limit that is not negative, [send_story_batch] posts at most
    [max_alerts] stories, and never more than there are stories at or above
    the threshold; every story it changes is one of those it posts. *)
Theorem send_story_batch_bounded (MIN_IMPACT_SCORE : Z) (webhook : nat → bool)
    (stories : list ref) (max_alerts : Z) (σ : store) :
  (0 ≤ max_alerts)%Z →
  (length (top_stories MIN_IMPACT_SCORE σ stories max_alerts)
   ≤ Z.to_nat max_alerts)%nat ∧
  (length (top_stories MIN_IMPACT_SCORE σ stories max_alerts)
   ≤ length (eligible MIN_IMPACT_SCORE σ stories))%nat ∧
  ∀ r, send_story_batch MIN_IMPACT_SCORE webhook stories max_alerts σ r ≠ σ r →
       r ∈ top_stories MIN_IMPACT_SCORE σ stories max_alerts.
Proof.
  intros Hmax. unfold top_stories at 1 2, py_slice_to.
  destruct (Z.leb_spec 0 max_alerts) as [_|?]; [|lia].
  rewrite length_take, length_sorted_by_score. split; [lia|]. split; [lia|].
  intros r Hchanged. unfold send_story_batch in Hchanged.
  destruct (send_loop_spec webhook 0
              (top_stories MIN_IMPACT_SCORE σ stories max_alerts) σ r)
    as [Hsame|[Hin _]]; [contradiction|exact Hin].
Qed.

Lemma send_story_batch_bounded_witness :
  (length (top_stories 5 scored_stories [0; 1; 2] 1) ≤ Z.to_nat 1)%nat ∧
  (length (top_stories 5 scored_stories [0; 1; 2] 1)
   ≤ length (eligible 5 scored_stories [0; 1; 2]))%nat ∧
  ∀ r, send_story_batch 5 (λ _, true) [0; 1; 2] 1 scored_stories r ≠ scored_stories r →
       r ∈ top_stories 5 scored_stories [0; 1; 2] 1.
Proof.
  apply (send_story_batch_bounded 5 (λ _, true) [0; 1; 2] 1 scored_stories). lia.
Defined.

(** The best story goes first. *)
Example top_stories_example :
  eligible 5 scored_stories [0; 1; 2] = [0; 1] ∧
  top_stories 5 scored_stories [0; 1; 2] 5 = [1; 0] ∧
  top_stories 5 scored_stories [0; 1; 2] 1 = [1] ∧
  top_stories 5 scored_stories [0; 1; 2] (-1) = [1] ∧
  is_sent (send_story_batch 5 (λ _, true) [0; 1; 2] 1 scored_stories 1) = true ∧
  is_sent (send_story_batch 5 (λ _, true) [0; 1; 2] 1 scored_stories 0) = false.
Proof. repeat split. Qed.

(** ** The order of the alerts *)

Lemma SFcompare_antisym (a b : spec_float) (c : comparison) :
  SFcompare a b = Some c → SFcompare b a = Some (CompOpp c).
Proof.
  destruct a as [s1|s1| |s1 m1 e1], b as [s2|s2| |s2 m2 e2]; simpl;
    try discriminate; intros [= <-];
    try (destruct s1; reflexivity); try (destruct s2; reflexivity);
    try (destruct s1, s2; reflexivity).
  destruct s1, s2; try reflexivity.
  - rewrite (Z.compare_antisym e1 e2).
    destruct (e1 ?= e2)%Z; simpl; try reflexivity.
    f_equal. f_equal. symmetry. apply (Pos.compare_cont_antisym m1 m2 Eq).
  - rewrite (Z.compare_antisym e1 e2).
    destruct (e1 ?= e2)%Z; simpl; try reflexivity.
    f_equal. symmetry. apply (Pos.compare_cont_antisym m1 m2 Eq).
Qed.

(** A float that is at least some float is not NaN. *)
Lemma leb_not_nan (m x : float) :
  (m <=? x)%float = true → SFcompare (Prim2SF x) (Prim2SF x) ≠ None.
Proof.
  rewrite leb_spec. unfold SFleb.
  destruct (Prim2SF m) as [s1|s1| |s1 m1 e1], (Prim2SF x) as [s2|s2| |s2 m2 e2];
    simpl; discriminate.
Qed.

Lemma SFcompare_defined (a b : spec_float) :
  SFcompare a a ≠ None → SFcompare b b ≠ None → SFcompare a b ≠ None.
Proof.
  destruct a as [s1|s1| |s1 m1 e1], b as [s2|s2| |s2 m2 e2]; simpl;
    congruence.
Qed.

(** Floats that are not NaN are totally ordered. *)
Lemma ltb_false_leb (x y : float) :
  SFcompare (Prim2SF x) (Prim2SF x) ≠ None →
  SFcompare (Prim2SF y) (Prim2SF y) ≠ None →
  (x <? y)%float = false → (y <=? x)%float = true.
Proof.
  intros Hx Hy. rewrite ltb_spec, leb_spec. unfold SFltb, SFleb.
  pose proof (SFcompare_defined _ _ Hx Hy) as Hxy.
  destruct (SFcompare (Prim2SF x) (Prim2SF y)) as [c|] eqn:E; [|contradiction].
  rewrite (SFcompare_antisym _ _ _ E). destruct c; simpl; congruence.
Qed.

Lemma HdRel_insert_by_score σ (a r : ref) (l : list ref) :
  (impact_score (σ r) <=? impact_score (σ a))%float = true →
  HdRel (λ r r', (impact_score (σ r') <=? impact_score (σ r))%float = true) a l →
  HdRel (λ r r', (impact_score (σ r') <=? impact_score (σ r))%float = true) a
    (insert_by_score σ r l).
Proof.
  intros Hr Hl. destruct l as [|r' rest]; simpl; [constructor; exact Hr|].
  destruct (impact_score (σ r) <? impact_score (σ r'))%float.
  - constructor. inversion Hl; assumption.
  - constructor. exact Hr.
Qed.

Lemma insert_by_score_sorted σ (r : ref) (l : list ref) :
  SFcompare (Prim2SF (impact_score (σ r))) (Prim2SF (impact_score (σ r))) ≠ None →
  (∀ x, x ∈ l →
        SFcompare (Prim2SF (impact_score (σ x))) (Prim2SF (impact_score (σ x))) ≠ None) →
  by_score_descending σ l → by_score_descending σ (insert_by_score σ r l).
Proof.
  intros Hr Hl Hsorted. unfold by_score_descending in *.
  induction Hsorted as [|r' rest Hrest IH Hhd]; simpl.
  - repeat constructor.
  - destruct (impact_score (σ r) <? impact_score (σ r'))%float eqn:Hlt.
    + constructor.
      * apply IH. intros x Hx. apply Hl. right. exact Hx.
      * apply HdRel_insert_by_score; [apply ltb_leb, Hlt|exact Hhd].
    + constructor; [constructor; assumption|].
      constructor. apply ltb_false_leb; [exact Hr| |exact Hlt].
      apply Hl. left.
Qed.

Lemma take_sorted {A : Type} (R : A → A → Prop) (n : nat) (l : list A) :
  Sorted R l → Sorted R (take n l).
Proof.
  intros Hsorted. revert n.
  induction Hsorted as [|a l Hl IH Hhd]; intros [|n]; simpl; try constructor.
  - apply IH.
  - destruct Hhd as [|b l' Hab]; destruct n; simpl; constructor. exact Hab.
Qed.

(** X19. The stories [send_story_batch] posts are in the order of their
    impact scores, the highest first: every story is posted before the stories
    of lower score. *)
Theorem top_stories_descending (MIN_IMPACT_SCORE : Z) (σ : store)
    (stories : list ref) (max_alerts : Z) :
  by_score_descending σ (top_stories MIN_IMPACT_SCORE σ stories max_alerts).
Proof.
  unfold top_stories.
  assert (by_score_descending σ
            (sorted_by_score σ (eligible MIN_IMPACT_SCORE σ stories))) as Hsorted.
  { assert (∀ x, x ∈ eligible MIN_IMPACT_SCORE σ stories →
                 SFcompare (Prim2SF (impact_score (σ x)))
                   (Prim2SF (impact_score (σ x))) ≠ None) as Hnan.
    { intros x Hx. unfold eligible in Hx.
      rewrite list_elem_of_In, List.filter_In in Hx. destruct Hx as [_ Hx].
      apply (leb_not_nan _ _ Hx). }
    induction (eligible MIN_IMPACT_SCORE σ stories) as [|r rest IH]; simpl.
    - constructor.
    - apply insert_by_score_sorted.
      + apply Hnan. left.
      + intros x Hx%sorted_by_score_elem_of. apply Hnan. right. exact Hx.
      + apply IH. intros x Hx. apply Hnan. right. exact Hx. }
  unfold py_slice_to. destruct (0 <=? max_alerts)%Z; apply take_sorted, Hsorted.
Qed.

Lemma insert_by_score_NoDup σ r l :
  r ∉ l → NoDup l → NoDup (insert_by_score σ r l).
Proof.
  intros Hr Hl. induction Hl as [|r' rest Hr' Hrest IH]; simpl.
  - apply NoDup_singleton.
  - apply not_elem_of_cons in Hr as [Hne Hr].
    destruct (impact_score (σ r) <? impact_score (σ r'))%float.
    + constructor; [|apply IH, Hr].
      rewrite insert_by_score_elem_of. intros [?|?]; [congruence|contradiction].
    + constructor; [|constructor; assumption].
      intros [?|?]%elem_of_cons; [congruence|contradiction].
Qed.

Lemma top_stories_NoDup MIN_IMPACT_SCORE σ stories max_alerts :
  NoDup stories → NoDup (top_stories MIN_IMPACT_SCORE σ stories max_alerts).
Proof.
  intros Hstories. unfold top_stories.
  apply (sublist_NoDup _ (sorted_by_score σ (eligible MIN_IMPACT_SCORE σ stories)));
    [|apply py_slice_to_sublist].
  assert (NoDup (eligible MIN_IMPACT_SCORE σ stories)) as Hel.
  { apply (sublist_NoDup _ stories); [exact Hstories|apply filter_sublist]. }
  induction Hel as [|r rest Hr Hrest IH]; simpl; [constructor|].
  apply insert_by_score_NoDup; [|exact IH].
  rewrite sorted_by_score_elem_of. exact Hr.
Qed.

Lemma send_loop_lookup webhook k top σ i r :
  NoDup top → top !! i = Some r →
  is_sent (send_loop webhook k top σ r) = webhook (k + i) || is_sent (σ r).
Proof.
  intros Htop. revert k σ i.
  induction Htop as [|r0 rest Hr0 Hrest IH]; intros k σ i; [discriminate|].
  destruct i as [|i]; simpl.
  - intros [= ->]. rewrite Nat.add_0_r.
    destruct (send_loop_spec webhook (S k) rest
                (send_story_alert (webhook k) r σ) r) as [->|[? _]];
      [|contradiction].
    unfold send_story_alert. destruct (webhook k); [|reflexivity].
    rewrite fn_lookup_insert. reflexivity.
  - intros Hi. rewrite (IH _ _ _ Hi), Nat.add_succ_r. f_equal.
    unfold send_story_alert. destruct (webhook k); [|reflexivity].
    rewrite fn_lookup_insert_ne; [reflexivity|].
    intros ->. apply Hr0. apply list_elem_of_lookup. eauto.
Qed.

(** X20. When the list passed to [send_story_batch] names no story twice, a
    story of the selection is marked sent exactly when its own POST goes
    through: after the call the [k]-th story posted is sent if the [k]-th
    POST succeeded or if it was sent already. *)
Theorem send_story_batch_marks_delivered (MIN_IMPACT_SCORE : Z)
    (webhook : nat → bool) (stories : list ref) (max_alerts : Z) (σ : store)
    (k : nat) (r : ref) :
  NoDup stories →
  top_stories MIN_IMPACT_SCORE σ stories max_alerts !! k = Some r →
  is_sent (send_story_batch MIN_IMPACT_SCORE webhook stories max_alerts σ r)
  = webhook k || is_sent (σ r).
Proof.
  intros Hstories Hk. unfold send_story_batch.
  apply (send_loop_lookup webhook 0 _ σ k r); [|exact Hk].
  apply top_stories_NoDup, Hstories.
Qed.

Lemma send_story_batch_marks_delivered_witness :
  is_sent (send_story_batch 5 (λ k, Nat.eqb k 1) [0; 1; 2] 5 scored_stories 0)
  = Nat.eqb 1 1 || is_sent (scored_stories 0).
Proof.
  apply (send_story_batch_marks_delivered 5 (λ k, Nat.eqb k 1) [0; 1; 2] 5
           scored_stories 1 0).
  - apply (bool_decide_unpack (NoDup [0; 1; 2])). vm_compute. exact I.
  - reflexivity.
Defined.

(** * Properties of the database layer *)

Section DatabaseProperties.

Variable isoformat : Z → string.
Variable json_dumps : list string → string.


Lemma row_id_story_row (story : CyberGoodNews) : row_id (story_row isoformat json_dumps story) = id story.
Proof. reflexivity. Qed.

Lemma existsb_row_has_id (k : string) (table : list StoryRow) :
  existsb (row_has_id (Some k)) table = true ↔ k ∈ omap row_id table.
Proof.
  induction table as [|row table IH]; simpl.
  - split; [discriminate|]. intros H. inversion H.
  - rewrite orb_true_iff, IH. unfold row_has_id. rewrite bool_decide_eq_true.
    destruct (row_id row) as [k'|] eqn:Hrow; cbn [omap list_omap].
    + rewrite elem_of_cons. split.
      * intros [[= ->]|?]; auto.
      * intros [->|?]; auto.
    + split; [intros [?|?]; [discriminate|assumption]|auto].
Qed.

Lemma existsb_find_row (k : string) (table : list StoryRow) :
  existsb (row_has_id (Some k)) table = true ↔ is_Some (find_row k table).
Proof.
  unfold find_row. induction table as [|row table IH]; simpl.
  - split; [discriminate|]. intros [? ?]. discriminate.
  - destruct (bool_decide (row_id row = Some k)); simpl; [|exact IH].
    split; [eauto|reflexivity].
Qed.

Lemma find_row_app (k : string) (t1 t2 : list StoryRow) :
  find_row k (t1 ++ t2)
  = match find_row k t1 with Some row => Some row | None => find_row k t2 end.
Proof.
  unfold find_row. induction t1 as [|row t1 IH]; simpl; [reflexivity|].
  destruct (bool_decide (row_id row = Some k)); [reflexivity|exact IH].
Qed.

Lemma omap_row_id_mark_as_sent (story_id : option string) (table : list StoryRow) :
  omap row_id (mark_as_sent story_id table) = omap row_id table.
Proof.
  unfold mark_as_sent. induction table as [|row table IH]; [reflexivity|].
  cbn [map omap list_omap]. cbn [omap list_omap] in IH. rewrite IH.
  destruct (row_has_id story_id row); reflexivity.
Qed.

Lemma save_story_unique_ids (story : CyberGoodNews) (table : list StoryRow) :
  unique_ids table → unique_ids (save_story isoformat json_dumps story table).2.
Proof.
  unfold unique_ids, save_story. intros Htable.
  destruct (existsb (row_has_id (id story)) table) eqn:Hex; [exact Htable|].
  cbn [snd]. rewrite omap_app. cbn [omap list_omap]. rewrite row_id_story_row.
  destruct (id story) as [k|] eqn:Hid; [|rewrite app_nil_r; exact Htable].
  apply NoDup_app. split; [exact Htable|]. split; [|apply NoDup_singleton].
  intros x Hx ->%list_elem_of_singleton.
  apply existsb_row_has_id in Hx. congruence.
Qed.

Lemma save_stories_loop_unique_ids stories table new_count :
  unique_ids table → unique_ids (save_stories_loop isoformat json_dumps stories table new_count).2.
Proof.
  revert table new_count. induction stories as [|story rest IH];
    intros table n Htable; [exact Htable|].
  simpl. pose proof (save_story_unique_ids story table Htable) as Hnext.
  destruct (save_story isoformat json_dumps story table) as [saved table']. apply IH, Hnext.
Qed.

(** X21. The primary key is kept by the code itself: from a table in which no
    two rows have the same id, [save_stories isoformat json_dumps] and [mark_as_sent] lead to
    tables in which no two rows have the same id, whatever the batch holds
    (stories saved before, the same story twice, stories without id). *)
Theorem table_keeps_unique_ids (stories : list CyberGoodNews)
    (story_id : option string) (table : list StoryRow) :
  unique_ids table →
  unique_ids (save_stories isoformat json_dumps stories table).2 ∧
  unique_ids (mark_as_sent story_id table).
Proof.
  intros Htable. split.
  - apply save_stories_loop_unique_ids, Htable.
  - unfold unique_ids. rewrite omap_row_id_mark_as_sent. exact Htable.
Qed.

Lemma save_stories_loop_spec stories table new_count :
  ∃ added,
    (save_stories_loop isoformat json_dumps stories table new_count).2 = (table ++ added)%list ∧
    (save_stories_loop isoformat json_dumps stories table new_count).1 = new_count + length added ∧
    (length added ≤ length stories)%nat ∧
    Forall (λ row, ∃ story, story ∈ stories ∧ row = story_row isoformat json_dumps story) added.
Proof.
  revert table new_count. induction stories as [|story rest IH]; intros table n.
  - exists []. simpl. rewrite app_nil_r.
    split; [reflexivity|]. split; [lia|]. split; [lia|constructor].
  - simpl. unfold save_story.
    destruct (existsb (row_has_id (id story)) table).
    + destruct (IH table n) as (added & Htable & Hcount & Hlen & Hrows).
      exists added. split; [exact Htable|]. split; [exact Hcount|].
      split; [lia|]. eapply Forall_impl; [exact Hrows|].
      intros row (s & Hs & ->). exists s. split; [right; exact Hs|reflexivity].
    + destruct (IH (table ++ [story_row isoformat json_dumps story])%list (S n))
        as (added & Htable & Hcount & Hlen & Hrows).
      exists (story_row isoformat json_dumps story :: added). split; [|split; [|split]].
      * rewrite Htable, <- app_assoc. reflexivity.
      * rewrite Hcount. simpl. lia.
      * simpl. lia.
      * constructor; [exists story; split; [left|reflexivity]|].
        eapply Forall_impl; [exact Hrows|].
        intros row (s & Hs & ->). exists s. split; [right; exact Hs|reflexivity].
Qed.

(** X22. [save_stories isoformat json_dumps] only appends: the rows that were in the table stay as
    they are and where they are, every row after them is the row of a story of
    the batch, and the number returned is the number of rows appended, at most
    the length of the batch. *)
Theorem save_stories_appends (stories : list CyberGoodNews) (table : list StoryRow) :
  ∃ added,
    (save_stories isoformat json_dumps stories table).2 = (table ++ added)%list ∧
    (save_stories isoformat json_dumps stories table).1 = length added ∧
    (length added ≤ length stories)%nat ∧
    Forall (λ row, ∃ story, story ∈ stories ∧ row = story_row isoformat json_dumps story) added.
Proof. apply (save_stories_loop_spec stories table 0). Qed.

Lemma existsb_row_has_id_app story_id (t1 t2 : list StoryRow) :
  existsb (row_has_id story_id) t1 = true →
  existsb (row_has_id story_id) (t1 ++ t2) = true.
Proof. intros H. rewrite existsb_app, H. reflexivity. Qed.

Lemma save_stories_loop_stored stories table new_count story :
  story ∈ stories → id story ≠ None →
  existsb (row_has_id (id story)) (save_stories_loop isoformat json_dumps stories table new_count).2 = true.
Proof.
  revert table new_count. induction stories as [|s rest IH]; intros table n Hin Hid;
    [inversion Hin|].
  simpl. apply elem_of_cons in Hin as [->|Hin].
  - unfold save_story.
    destruct (existsb (row_has_id (id s)) table) eqn:Hex.
    + destruct (save_stories_loop_spec rest table n) as (added & -> & _).
      apply existsb_row_has_id_app, Hex.
    + destruct (save_stories_loop_spec rest (table ++ [story_row isoformat json_dumps s])%list (S n))
        as (added & -> & _).
      apply existsb_row_has_id_app. rewrite existsb_app. cbn [existsb].
      destruct (id s) as [k|] eqn:Hk; [|contradiction].
      unfold row_has_id at 2. rewrite row_id_story_row, Hk.
      rewrite bool_decide_eq_true_2 by reflexivity. apply orb_true_r.
  - destruct (save_story isoformat json_dumps s table) as [saved table']. apply IH; assumption.
Qed.

Lemma save_stories_loop_known stories table new_count :
  (∀ story, story ∈ stories → existsb (row_has_id (id story)) table = true) →
  save_stories_loop isoformat json_dumps stories table new_count = (new_count, table).
Proof.
  revert new_count. induction stories as [|s rest IH]; intros n Hknown; [reflexivity|].
  simpl. unfold save_story. rewrite (Hknown s) by left.
  apply IH. intros story Hin. apply Hknown. right. exact Hin.
Qed.

(** X23. Saving a batch of stories that all have an id a second time saves
    nothing: the second call returns 0 and leaves the table as the first call
    left it. *)
Theorem save_stories_again (stories : list CyberGoodNews) (table : list StoryRow) :
  (∀ story, story ∈ stories → id story ≠ None) →
  save_stories isoformat json_dumps stories (save_stories isoformat json_dumps stories table).2
  = (0, (save_stories isoformat json_dumps stories table).2).
Proof.
  intros Hids. apply save_stories_loop_known.
  intros story Hin. apply save_stories_loop_stored; [exact Hin|apply Hids, Hin].
Qed.

(** X24. The first story saved under an id stays: [save_story isoformat json_dumps] returns true
    exactly when no row has the id of the story, and afterwards the row found
    under that id is the one that was there, or the row of the story when
    there was none. *)
Theorem save_story_first_wins (story : CyberGoodNews) (k : string)
    (table : list StoryRow) :
  id story = Some k →
  (save_story isoformat json_dumps story table).1 = bool_decide (find_row k table = None) ∧
  find_row k (save_story isoformat json_dumps story table).2
  = Some (default (story_row isoformat json_dumps story) (find_row k table)).
Proof.
  intros Hid. unfold save_story. rewrite Hid.
  destruct (existsb (row_has_id (Some k)) table) eqn:Hex; simpl.
  - apply existsb_find_row in Hex as [row Hrow]. rewrite Hrow. split; reflexivity.
  - assert (find_row k table = None) as Hnone.
    { destruct (find_row k table) eqn:Hfind; [|reflexivity].
      assert (existsb (row_has_id (Some k)) table = true)
        by (apply existsb_find_row; rewrite Hfind; eauto).
      congruence. }
    rewrite find_row_app, Hnone. split; [reflexivity|].
    unfold find_row. cbn [List.find]. unfold row_has_id.
    rewrite row_id_story_row, Hid.
    rewrite bool_decide_eq_true_2 by reflexivity. reflexivity.
Qed.

Lemma find_row_id (k : string) (table : list StoryRow) (row : StoryRow) :
  find_row k table = Some row → row_id row = Some k.
Proof.
  unfold find_row. intros [_ Hrow]%List.find_some.
  unfold row_has_id in Hrow. apply bool_decide_eq_true in Hrow. exact Hrow.
Qed.

(** Marking rows as sent maps over the row found under an id. *)
Lemma find_row_mark_as_sent (k : string) (story_id : option string)
    (table : list StoryRow) :
  find_row k (mark_as_sent story_id table)
  = (λ row, if row_has_id story_id row then set_row_is_sent 1 row else row)
      <$> find_row k table.
Proof.
  unfold find_row, mark_as_sent. induction table as [|row table IH]; [reflexivity|].
  cbn [map List.find].
  replace (row_has_id (Some k)
             (if row_has_id story_id row then set_row_is_sent 1 row else row))
    with (row_has_id (Some k) row)
    by (destruct (row_has_id story_id row); reflexivity).
  destruct (row_has_id (Some k) row); [reflexivity|exact IH].
Qed.

(** X25. A story that is saved and then marked as sent is stored with
    [is_sent = 1] and its other columns as they were saved, and the rows
    stored under the other ids are as they were before the two calls. *)
Theorem saved_then_marked_as_sent (story : CyberGoodNews) (k : string)
    (table : list StoryRow) :
  id story = Some k →
  find_row k table = None →
  find_row k (mark_as_sent (Some k) (save_story isoformat json_dumps story table).2)
  = Some (set_row_is_sent 1 (story_row isoformat json_dumps story)) ∧
  ∀ k', k' ≠ k →
    find_row k' (mark_as_sent (Some k) (save_story isoformat json_dumps story table).2)
    = find_row k' table.
Proof.
  intros Hid Hnone.
  assert ((save_story isoformat json_dumps story table).2
          = (table ++ [story_row isoformat json_dumps story])%list) as ->.
  { unfold save_story. rewrite Hid.
    destruct (existsb (row_has_id (Some k)) table) eqn:Hex; [|reflexivity].
    apply existsb_find_row in Hex as [row Hrow]. congruence. }
  assert (∀ k', row_has_id (Some k') (story_row isoformat json_dumps story)
                = bool_decide (k = k')) as Hrow.
  { intros k'. unfold row_has_id. rewrite row_id_story_row, Hid.
    apply bool_decide_ext. split; congruence. }
  split.
  - rewrite find_row_mark_as_sent, find_row_app, Hnone.
    unfold find_row. cbn [List.find]. rewrite Hrow.
    rewrite bool_decide_eq_true_2 by reflexivity.
    cbn [fmap option_fmap option_map]. rewrite Hrow.
    rewrite bool_decide_eq_true_2 by reflexivity. reflexivity.
  - intros k' Hne. rewrite find_row_mark_as_sent, find_row_app.
    destruct (find_row k' table) as [row|] eqn:Hfound.
    + cbn [fmap option_fmap option_map]. f_equal.
      apply find_row_id in Hfound. unfold row_has_id. rewrite Hfound.
      rewrite bool_decide_eq_false_2 by congruence. reflexivity.
    + unfold find_row. cbn [List.find]. rewrite Hrow.
      rewrite bool_decide_eq_false_2 by congruence. reflexivity.
Qed.

End DatabaseProperties.

Lemma table_keeps_unique_ids_witness :
  unique_ids (save_stories example_isoformat example_json_dumps
                [arrest_story; takedown_story; arrest_story] []).2 ∧
  unique_ids (mark_as_sent (Some "a1") []).
Proof.
  apply (table_keeps_unique_ids example_isoformat example_json_dumps
           [arrest_story; takedown_story; arrest_story] (Some "a1") []).
  constructor.
Defined.

Lemma save_stories_again_witness :
  save_stories example_isoformat example_json_dumps
    [arrest_story; takedown_story; arrest_story]
    (save_stories example_isoformat example_json_dumps
       [arrest_story; takedown_story; arrest_story] []).2
  = (0, (save_stories example_isoformat example_json_dumps
           [arrest_story; takedown_story; arrest_story] []).2).
Proof.
  apply (save_stories_again example_isoformat example_json_dumps
           [arrest_story; takedown_story; arrest_story] []).
  intros story Hin. apply list_elem_of_In in Hin. simpl in Hin.
  destruct Hin as [<-|[<-|[<-|[]]]]; discriminate.
Defined.

Lemma save_story_first_wins_witness :
  (save_story example_isoformat example_json_dumps arrest_story []).1
  = bool_decide (find_row "a1" [] = None) ∧
  find_row "a1" (save_story example_isoformat example_json_dumps arrest_story []).2
  = Some (default (story_row example_isoformat example_json_dumps arrest_story)
            (find_row "a1" [])).
Proof.
  apply (save_story_first_wins example_isoformat example_json_dumps arrest_story "a1" []).
  reflexivity.
Defined.

(** A batch with a story twice: two rows are written and 2 is returned. *)
Example save_stories_example :
  (save_stories example_isoformat example_json_dumps
     [arrest_story; takedown_story; arrest_story] []).1 = 2 ∧
  map row_id (save_stories example_isoformat example_json_dumps
                [arrest_story; takedown_story; arrest_story] []).2
  = [Some "a1"; Some "d4"].
Proof. split; reflexivity. Qed.

Lemma saved_then_marked_as_sent_witness :
  find_row "a1" (mark_as_sent (Some "a1")
                   (save_story example_isoformat example_json_dumps arrest_story []).2)
  = Some (set_row_is_sent 1
            (story_row example_isoformat example_json_dumps arrest_story)) ∧
  ∀ k', k' ≠ "a1" →
    find_row k' (mark_as_sent (Some "a1")
                   (save_story example_isoformat example_json_dumps arrest_story []).2)
    = find_row k' [].
Proof.
  apply (saved_then_marked_as_sent example_isoformat example_json_dumps
           arrest_story "a1" []); reflexivity.
Defined.

(** * Properties of a collection cycle *)

Section AlertCycleProperties.

Variable MIN_IMPACT_SCORE : Z.
Variable MAX_ALERTS_PER_HOUR : Z.
Variable rules : Rules.
Variable isoformat : Z → string.
Variable json_dumps : list string → string.

Lemma unmark_mark_as_sent (story_id : option string) (table : list StoryRow) :
  map (set_row_is_sent 0) (mark_as_sent story_id table)
  = map (set_row_is_sent 0) table.
Proof.
  unfold mark_as_sent. rewrite List.map_map. apply List.map_ext.
  intros row. destruct (row_has_id story_id row); reflexivity.
Qed.

Lemma unmark_mark_sent_stories (σ : store) (unsent : list ref)
    (table : list StoryRow) :
  map (set_row_is_sent 0) (mark_sent_stories σ unsent table)
  = map (set_row_is_sent 0) table.
Proof.
  unfold mark_sent_stories. revert table.
  induction unsent as [|r rest IH]; intros table; [reflexivity|].
  simpl. rewrite IH. destruct (is_sent (σ r)); [apply unmark_mark_as_sent|reflexivity].
Qed.

(** What a cycle does to the store and to the table, in terms of the store
    and the table that scoring and saving leave. *)
Lemma alert_new_stories_spec (webhook : nat → bool) (stories : list ref)
    (σ : store) (table : list StoryRow) :
  let scored := process_stories MIN_IMPACT_SCORE rules stories σ in
  let saved := save_stories isoformat json_dumps (map scored.2 scored.1) table in
  let cycle := alert_new_stories MIN_IMPACT_SCORE MAX_ALERTS_PER_HOUR rules
                 isoformat json_dumps webhook stories σ table in
  (∀ r, cycle.1 r = scored.2 r ∨
        (cycle.1 r = set_is_sent true (scored.2 r) ∧ r ∈ scored.1)) ∧
  map (set_row_is_sent 0) cycle.2 = map (set_row_is_sent 0) saved.2.
Proof.
  intros scored saved cycle. subst scored saved cycle. unfold alert_new_stories.
  destruct stories as [|r0 rest]; [split; [left|]; reflexivity|].
  destruct (process_stories MIN_IMPACT_SCORE rules (r0 :: rest) σ)
    as [positive σ1]. cbn [fst snd].
  destruct (save_stories isoformat json_dumps (map σ1 positive) table)
    as [new_count table1]. cbn [fst snd].
  destruct (0 <? new_count)%nat; [|split; [left|]; reflexivity].
  destruct (unsent_stories MIN_IMPACT_SCORE σ1 positive) as [|u unsent] eqn:Hunsent;
    [split; [left|]; reflexivity|].
  cbn [fst snd]. split; [|apply unmark_mark_sent_stories].
  intros r.
  destruct (send_story_batch_effect MIN_IMPACT_SCORE webhook (u :: unsent)
              MAX_ALERTS_PER_HOUR σ1 r) as [Hsame|(Hsent & Hin & _)];
    [left; exact Hsame|].
  right. split; [exact Hsent|].
  rewrite <- Hunsent in Hin. unfold unsent_stories in Hin.
  rewrite list_elem_of_In, List.filter_In, <- list_elem_of_In in Hin. apply Hin.
Qed.

(** X26. When every story that scoring returns already has a row in the
    table, the cycle posts nothing and writes nothing to the table: the store
    is left as scoring leaves it and the table as it was. *)
Theorem nothing_new_nothing_sent (webhook : nat → bool) (stories : list ref)
    (σ : store) (table : list StoryRow) :
  (∀ r, r ∈ (process_stories MIN_IMPACT_SCORE rules stories σ).1 →
        existsb (row_has_id (id ((process_stories MIN_IMPACT_SCORE rules stories σ).2 r)))
          table = true) →
  alert_new_stories MIN_IMPACT_SCORE MAX_ALERTS_PER_HOUR rules isoformat json_dumps
    webhook stories σ table
  = ((process_stories MIN_IMPACT_SCORE rules stories σ).2, table).
Proof.
  intros Hknown. unfold alert_new_stories.
  destruct stories as [|r0 rest]; [reflexivity|].
  destruct (process_stories MIN_IMPACT_SCORE rules (r0 :: rest) σ)
    as [positive σ1]. cbn [fst snd] in *.
  unfold save_stories. rewrite save_stories_loop_known; [reflexivity|].
  intros story [r [-> Hr]]%list_elem_of_fmap. apply Hknown, Hr.
Qed.

(** X27. After a cycle every row of the table is, up to the column [is_sent],
    a row that was in the table before or the row of a story of the cycle that
    is marked processed and has an impact score of at least
    [MIN_IMPACT_SCORE]: a story below the threshold is never stored. *)
Theorem cycle_stores_positive_stories (webhook : nat → bool) (stories : list ref)
    (σ : store) (table : list StoryRow) (row : StoryRow) :
  row ∈ (alert_new_stories MIN_IMPACT_SCORE MAX_ALERTS_PER_HOUR rules isoformat
           json_dumps webhook stories σ table).2 →
  (∃ old, old ∈ table ∧ same_but_sent old row) ∨
  (∃ r, r ∈ stories ∧
        is_processed ((alert_new_stories MIN_IMPACT_SCORE MAX_ALERTS_PER_HOUR rules
                         isoformat json_dumps webhook stories σ table).1 r) = true ∧
        meets_threshold MIN_IMPACT_SCORE
          ((alert_new_stories MIN_IMPACT_SCORE MAX_ALERTS_PER_HOUR rules
              isoformat json_dumps webhook stories σ table).1 r) = true ∧
        same_but_sent
          (story_row isoformat json_dumps
             ((alert_new_stories MIN_IMPACT_SCORE MAX_ALERTS_PER_HOUR rules
                 isoformat json_dumps webhook stories σ table).1 r))
          row).
Proof.
  intros Hrow.
  destruct (alert_new_stories_spec webhook stories σ table) as [Hstore Htable].
  cbv zeta in Hstore, Htable.
  assert (set_row_is_sent 0 row
          ∈ map (set_row_is_sent 0)
              (save_stories isoformat json_dumps
                 (map (process_stories MIN_IMPACT_SCORE rules stories σ).2
                    (process_stories MIN_IMPACT_SCORE rules stories σ).1) table).2)
    as Hsaved.
  { rewrite <- Htable. apply list_elem_of_fmap. exists row. split; [reflexivity|exact Hrow]. }
  apply list_elem_of_fmap in Hsaved as (row1 & Hsame & Hrow1).
  destruct (save_stories_loop_spec isoformat json_dumps
              (map (process_stories MIN_IMPACT_SCORE rules stories σ).2
                 (process_stories MIN_IMPACT_SCORE rules stories σ).1) table 0)
    as (added & Hadded & _ & _ & Hrows).
  fold (save_stories isoformat json_dumps
          (map (process_stories MIN_IMPACT_SCORE rules stories σ).2
             (process_stories MIN_IMPACT_SCORE rules stories σ).1) table) in Hadded.
  rewrite Hadded in Hrow1. apply elem_of_app in Hrow1 as [Hold|Hnew].
  - left. exists row1. split; [exact Hold|]. unfold same_but_sent. congruence.
  - right. rewrite Forall_forall in Hrows.
    destruct (Hrows row1) as (story & Hstory & ->);
      [exact Hnew|].
    apply list_elem_of_fmap in Hstory as (r & -> & Hr).
    exists r.
    destruct (process_stories_spec MIN_IMPACT_SCORE rules stories σ) as [Hout Hspec].
    pose proof Hr as Hr'. rewrite Hout in Hr'.
    rewrite list_elem_of_In, List.filter_In, <- list_elem_of_In in Hr'.
    destruct Hr' as [Hin Hkept].
    pose proof (kept_story_after _ _ _ Hkept) as [Hprocessed Hmeets].
    assert ((process_stories MIN_IMPACT_SCORE rules stories σ).2 r
            = story_after rules (σ r)) as Hafter
      by (rewrite Hspec, decide_True by exact Hin; reflexivity).
    rewrite <- Hafter in Hprocessed, Hmeets.
    split; [exact Hin|].
    destruct (Hstore r) as [->|[-> _]].
    + split; [exact Hprocessed|]. split; [exact Hmeets|].
      unfold same_but_sent. congruence.
    + split; [exact Hprocessed|]. split; [exact Hmeets|].
      unfold same_but_sent. rewrite Hsame. reflexivity.
Qed.

End AlertCycleProperties.

(** A cycle over a story that passes and a story that does not: one row is
    written, one story is posted and its row is marked. *)
Example alert_new_stories_example :
  map row_id (alert_new_stories 5 5 example_rules example_isoformat
                example_json_dumps (λ _, true) [0; 1] feed_stories []).2
  = [Some "a1"] ∧
  map row_is_sent (alert_new_stories 5 5 example_rules example_isoformat
                     example_json_dumps (λ _, true) [0; 1] feed_stories []).2
  = [1%Z] ∧
  is_sent ((alert_new_stories 5 5 example_rules example_isoformat
              example_json_dumps (λ _, true) [0; 1] feed_stories []).1 0) = true ∧
  is_sent ((alert_new_stories 5 5 example_rules example_isoformat
              example_json_dumps (λ _, true) [0; 1] feed_stories []).1 1) = false ∧
  map row_is_sent (alert_new_stories 5 5 example_rules example_isoformat
                     example_json_dumps (λ _, false) [0; 1] feed_stories []).2
  = [0%Z].
Proof. repeat split. Qed.

Lemma nothing_new_nothing_sent_witness :
  alert_new_stories 5 5 example_rules example_isoformat example_json_dumps
    (λ _, true) [0] (one_story arrest_story)
    [story_row example_isoformat example_json_dumps arrest_story]
  = ((process_stories 5 example_rules [0] (one_story arrest_story)).2,
     [story_row example_isoformat example_json_dumps arrest_story]).
Proof.
  apply (nothing_new_nothing_sent 5 5 example_rules example_isoformat
           example_json_dumps (λ _, true) [0] (one_story arrest_story)).
  intros r Hr. change (r ∈ [0]) in Hr.
  apply list_elem_of_singleton in Hr as ->. reflexivity.
Defined.

Lemma cycle_stores_positive_stories_witness :
  (∃ old, old ∈ [] ∧
          same_but_sent old
            (set_row_is_sent 1
               (story_row example_isoformat example_json_dumps
                  ((process_stories 5 example_rules [0] (one_story arrest_story)).2 0)))) ∨
  (∃ r, r ∈ [0] ∧
        is_processed ((alert_new_stories 5 5 example_rules example_isoformat
                         example_json_dumps (λ _, true) [0]
                         (one_story arrest_story) []).1 r) = true ∧
        meets_threshold 5
          ((alert_new_stories 5 5 example_rules example_isoformat
              example_json_dumps (λ _, true) [0] (one_story arrest_story) []).1 r)
        = true ∧
        same_but_sent
          (story_row example_isoformat example_json_dumps
             ((alert_new_stories 5 5 example_rules example_isoformat
                 example_json_dumps (λ _, true) [0] (one_story arrest_story) []).1 r))
          (set_row_is_sent 1
             (story_row example_isoformat example_json_dumps
                ((process_stories 5 example_rules [0] (one_story arrest_story)).2 0)))).
Proof.
  apply (cycle_stores_positive_stories 5 5 example_rules example_isoformat
           example_json_dumps (λ _, true) [0] (one_story arrest_story) []).
  apply list_elem_of_lookup. exists 0. vm_compute. reflexivity.
Defined.
